(** * Bird.com inbound SMS webhook (POST /bird-sms-webhook)

    A shallow embedding of the inbound message handler of the repository
    ([POST] with its helpers [processStopRequest], [processUnsubscription],
    [sendSMSInConversation], the reply senders and the payload extractors),
    and of the collaborators it calls (Airtable record store, Stripe,
    Bird messaging API), followed by the properties stated for it.

    Modelling conventions.
    - JavaScript values are the [js] type below.  Strings are Rocq
      [string]s read as UTF-8 byte sequences of Basic Multilingual Plane
      characters; [trim] and the regular expression [\s] remove the
      ECMAScript white space and line terminator characters, and
      [toUpperCase] is used only in comparisons with keywords made of
      ASCII capital letters ([upper_equals]).  A number is kept as the
      text [String(n)] gives for it: for finite numbers this text is
      injective up to [0 = -0], which is exactly JavaScript's SameValueZero.
    - Objects carry their own properties in JavaScript enumeration order,
      without duplicates, as [JSON.parse] produces them.
    - The time written by [new Date().toISOString()] into Airtable
      records is read from the world's [clock]; other uses of time
      ([Date.now], [processingTimeMs]) and logging are not modelled. *)

From Stdlib Require Import String Ascii List Bool Arith NArith Lia.
Import ListNotations.
Open Scope string_scope.
#[local] Set Warnings "-register-all,-abstract-large-number".

(* ------------------------------------------------------------------ *)
(** ** JavaScript values *)

Inductive js : Type :=
| JUndef
| JNull
| JBool (b : bool)
| JNum (repr : string)
| JStr (s : string)
| JArr (items : list js)
| JObj (props : list (string * js)).

Fixpoint find_prop (k : string) (ps : list (string * js)) : js :=
  match ps with
  | [] => JUndef
  | (k', v) :: ps' => if String.eqb k k' then v else find_prop k ps'
  end.

(** Property read [v.k] on a value that is not [null]/[undefined] (every
    read below that is not guarded by [nullish] is on such a value).
    None of the property names read by the handler is a property of a
    primitive or of an array, so those give [undefined]. *)
Definition get (v : js) (k : string) : js :=
  match v with
  | JObj ps => find_prop k ps
  | _ => JUndef
  end.

Definition nullish (v : js) : bool :=
  match v with JUndef | JNull => true | _ => false end.

(** Optional chaining [v?.k]. *)
Definition get_opt (v : js) (k : string) : js :=
  if nullish v then JUndef else get v k.

(** JavaScript truthiness ([NaN] does not come out of [JSON.parse]). *)
Definition truthy (v : js) : bool :=
  match v with
  | JUndef | JNull => false
  | JBool b => b
  | JNum r => negb (String.eqb r "0")
  | JStr s => negb (String.eqb s "")
  | JArr _ | JObj _ => true
  end.

(** [a || b] *)
Definition jor (a b : js) : js := if truthy a then a else b.
Infix "|||" := jor (at level 50, left associativity).

(** [v === "lit"] *)
Definition is_str (v : js) (lit : string) : bool :=
  match v with JStr s => String.eqb s lit | _ => false end.

(** [typeof v === 'string'] *)
Definition is_string (v : js) : bool :=
  match v with JStr _ => true | _ => false end.

(** SameValueZero, the key equality of a [Set].  The object and array
    values of one request are freshly parsed, so they are never the same
    value as a key stored by an earlier request. *)
Definition same_value_zero (a b : js) : bool :=
  match a, b with
  | JUndef, JUndef | JNull, JNull => true
  | JBool x, JBool y => Bool.eqb x y
  | JNum x, JNum y => String.eqb x y
  | JStr x, JStr y => String.eqb x y
  | _, _ => false
  end.

(* ------------------------------------------------------------------ *)
(** ** String primitives *)

Definition chr (n : nat) : ascii := ascii_of_nat n.

(** A continuation byte [10xxxxxx] of UTF-8. *)
Definition is_cont (b : ascii) : bool :=
  let n := nat_of_ascii b in Nat.leb 128 n && Nat.ltb n 192.

(** The characters (code points) of [s], each as its UTF-8 bytes: a byte
    that is not a continuation byte starts a character, and the
    continuation bytes that follow it belong to it. *)
Fixpoint utf8_chars (s : string) : list string :=
  match s with
  | EmptyString => []
  | String b s' =>
      match utf8_chars s' with
      | String b' t :: rest =>
          if is_cont b' then String b (String b' t) :: rest
          else String b EmptyString :: String b' t :: rest
      | rest => String b EmptyString :: rest
      end
  end.

Fixpoint str_concat (l : list string) : string :=
  match l with
  | [] => EmptyString
  | c :: l' => c ++ str_concat l'
  end.

(** The UTF-8 bytes of a code point of the Basic Multilingual Plane. *)
Definition utf8_encode (cp : N) : string :=
  if (cp <? 128)%N then String (ascii_of_N cp) EmptyString
  else if (cp <? 2048)%N then
    String (ascii_of_N (192 + cp / 64)) (String (ascii_of_N (128 + cp mod 64)) EmptyString)
  else
    String (ascii_of_N (224 + cp / 4096))
      (String (ascii_of_N (128 + (cp / 64) mod 64))
         (String (ascii_of_N (128 + cp mod 64)) EmptyString)).

(** The code points of ECMAScript's WhiteSpace and LineTerminator, the
    characters [trim] removes and the regular expression [\s] matches:
    tab, line feed, line tabulation, form feed, carriage return, the
    space separators (space, no-break space, ogham space mark, en quad to
    hair space, narrow no-break space, medium mathematical space,
    ideographic space), line separator, paragraph separator and the byte
    order mark. *)
Definition js_ws_code_points : list N :=
  [0x9; 0xA; 0xB; 0xC; 0xD; 0x20; 0xA0; 0x1680;
   0x2000; 0x2001; 0x2002; 0x2003; 0x2004; 0x2005; 0x2006; 0x2007; 0x2008; 0x2009; 0x200A;
   0x2028; 0x2029; 0x202F; 0x205F; 0x3000; 0xFEFF]%N.

Definition is_ws_char (ch : string) : bool :=
  existsb (fun cp => String.eqb ch (utf8_encode cp)) js_ws_code_points.

Fixpoint drop_ws (cs : list string) : list string :=
  match cs with
  | [] => []
  | c :: cs' => if is_ws_char c then drop_ws cs' else cs
  end.

(** [s.trim()] *)
Definition trim (s : string) : string :=
  str_concat (rev (drop_ws (rev (drop_ws (utf8_chars s))))).

(** [s.replace(/\s+/g, '')] *)
Definition remove_ws (s : string) : string :=
  str_concat (filter (fun ch => negb (is_ws_char ch)) (utf8_chars s)).

(** The characters other than the ASCII letters whose upper case
    ([toUpperCase], with the full mappings of UnicodeData.txt and
    SpecialCasing.txt) is made of ASCII capital letters only: sharp s,
    dotless i, long s and the Latin ligatures ff, fi, fl, ffi, ffl, long
    s t and st.  The upper case of every other character that is not an
    ASCII letter contains a character that is not an ASCII capital
    letter. *)
Definition special_upper : list (N * string) :=
  [(0xDF, "SS"); (0x131, "I"); (0x17F, "S"); (0xFB00, "FF"); (0xFB01, "FI");
   (0xFB02, "FL"); (0xFB03, "FFI"); (0xFB04, "FFL"); (0xFB05, "ST"); (0xFB06, "ST")]%N.

(** The upper case of the character [ch] when it is made of ASCII capital
    letters; [None] when it is not. *)
Definition upper_letters (ch : string) : option string :=
  match ch with
  | String c EmptyString =>
      let n := nat_of_ascii c in
      if Nat.leb 65 n && Nat.leb n 90 then Some ch
      else if Nat.leb 97 n && Nat.leb n 122 then Some (String (chr (n - 32)) EmptyString)
      else None
  | _ =>
      match find (fun e => String.eqb ch (utf8_encode (fst e))) special_upper with
      | Some e => Some (snd e)
      | None => None
      end
  end.

Fixpoint upper_letters_all (cs : list string) : option string :=
  match cs with
  | [] => Some EmptyString
  | c :: cs' =>
      match upper_letters c, upper_letters_all cs' with
      | Some u, Some r => Some (u ++ r)
      | _, _ => None
      end
  end.

(** [s.toUpperCase() === kw] for a keyword [kw] made of ASCII capital
    letters: every character of [s] has an upper case made of ASCII
    capital letters, and together these spell [kw]. *)
Definition upper_equals (s kw : string) : bool :=
  match upper_letters_all (utf8_chars s) with
  | Some u => String.eqb u kw
  | None => false
  end.

(** [s.startsWith(p)] *)
Definition starts_with (p s : string) : bool :=
  String.prefix p s.

Fixpoint concat_with (sep : string) (l : list string) : string :=
  match l with
  | [] => ""
  | [x] => x
  | x :: l' => x ++ sep ++ concat_with sep l'
  end.

Definition hex_digit (n : nat) : ascii :=
  if Nat.ltb n 10 then chr (48 + n) else chr (55 + n).

Definition hex_digit_lower (n : nat) : ascii :=
  if Nat.ltb n 10 then chr (48 + n) else chr (87 + n).

(** [encodeURIComponent(s)]: the unreserved characters are kept, every
    other byte of the UTF-8 text is written [%XX]. *)
Definition uri_unreserved (c : ascii) : bool :=
  let n := nat_of_ascii c in
  ((Nat.leb 48 n) && (Nat.leb n 57)) || ((Nat.leb 65 n) && (Nat.leb n 90))
  || ((Nat.leb 97 n) && (Nat.leb n 122))
  || existsb (Nat.eqb n) [45; 95; 46; 33; 126; 42; 39; 40; 41].

Fixpoint encode_uri_component (s : string) : string :=
  match s with
  | EmptyString => EmptyString
  | String c s' =>
      if uri_unreserved c then String c (encode_uri_component s')
      else let n := nat_of_ascii c in
           String "%" (String (hex_digit (n / 16))
             (String (hex_digit (n mod 16)) (encode_uri_component s')))
  end.

(** [s.replace(pat, rep)] with a string pattern: the first occurrence only. *)
Fixpoint replace_first (pat rep s : string) : string :=
  if String.prefix pat s then rep ++ substring (String.length pat) (String.length s) s
  else match s with
       | EmptyString => EmptyString
       | String c s' => String c (replace_first pat rep s')
       end.

(** Character escaping of [JSON.stringify] for a string. *)
Definition json_escape_char (c : ascii) : string :=
  let n := nat_of_ascii c in
  if Nat.eqb n 34 then String "\" (String c EmptyString)
  else if Nat.eqb n 92 then String "\" (String "\" EmptyString)
  else if Nat.eqb n 8 then "\b"
  else if Nat.eqb n 12 then "\f"
  else if Nat.eqb n 10 then "\n"
  else if Nat.eqb n 13 then "\r"
  else if Nat.eqb n 9 then "\t"
  else if Nat.ltb n 32 then
    "\u00" ++ String (hex_digit_lower (n / 16)) (String (hex_digit_lower (n mod 16)) EmptyString)
  else String c EmptyString.

Fixpoint json_escape (s : string) : string :=
  match s with
  | EmptyString => EmptyString
  | String c s' => json_escape_char c ++ json_escape s'
  end.

Definition json_quote (s : string) : string :=
  String (chr 34) (json_escape s ++ String (chr 34) EmptyString).

(** [JSON.stringify(v)] for a parsed JSON value. *)
Fixpoint json_stringify (v : js) : string :=
  match v with
  | JUndef => "undefined"
  | JNull => "null"
  | JBool true => "true"
  | JBool false => "false"
  | JNum r => r
  | JStr s => json_quote s
  | JArr items =>
      "[" ++ concat_with "," (map json_stringify items) ++ "]"
  | JObj ps =>
      "{" ++ concat_with ","
        (map (fun kv => json_quote (fst kv) ++ ":" ++ json_stringify (snd kv)) ps)
      ++ "}"
  end.

(** The object has an own property [k]. *)
Definition has_prop (k : string) (ps : list (string * js)) : bool :=
  existsb (fun kv => String.eqb (fst kv) k) ps.

(** [String(v)], and [`${v}`]; [None] is the [TypeError] it throws.  An
    array is joined with "," ([null]/[undefined] items give "").  A parsed
    object inherits [Object.prototype.toString] unless it has an own
    property "toString": that one is not callable (JSON has no functions),
    and [valueOf] gives back the object itself, so the conversion throws
    "Cannot convert object to primitive value". *)
Fixpoint js_to_string (v : js) : option string :=
  match v with
  | JUndef => Some "undefined"
  | JNull => Some "null"
  | JBool true => Some "true"
  | JBool false => Some "false"
  | JNum r => Some r
  | JStr s => Some s
  | JArr items =>
      let fix items_to_string (l : list js) : option (list string) :=
        match l with
        | [] => Some []
        | x :: l' =>
            match (if nullish x then Some "" else js_to_string x), items_to_string l' with
            | Some t, Some r => Some (t :: r)
            | _, _ => None
            end
        end in
      option_map (concat_with ",") (items_to_string items)
  | JObj ps => if has_prop "toString" ps then None else Some "[object Object]"
  end.

(* ------------------------------------------------------------------ *)
(** ** Payload extraction (STEP 3 to STEP 8 of [POST])

    Each extractor is called with a value that is not [null]/[undefined]
    (the parsed body once STEP 2 has read [body.type], or a truthy nested
    value of it, see [select_payload_not_nullish]); every nested read is
    guarded by a truthiness test or by [?.], so none of them throws. *)

(** [extractMessageId(msg)] *)
Definition extractMessageId (msg : js) : js :=
  get msg "id" ||| get msg "messageId" ||| get msg "message_id"
  ||| get msg "eventId" ||| get msg "event_id" ||| get msg "webhookId"
  ||| get msg "webhook_id" ||| JNull.

(** [extractSenderNumber(msg)] *)
Definition extractSenderNumber (msg : js) : js :=
  let sender := get msg "sender" in
  if truthy sender then
    let contact := get sender "contact" in
    if truthy contact then
      get contact "identifierValue" ||| get contact "platformAddress"
      ||| get contact "msisdn" ||| get contact "phoneNumber" ||| JStr ""
    else
      get sender "identifierValue" ||| get sender "platformAddress"
      ||| get sender "msisdn" ||| get sender "phoneNumber" ||| JStr ""
  else
    let contact := get msg "contact" in
    if truthy contact then
      get contact "identifierValue" ||| get contact "platformAddress"
      ||| get contact "msisdn" ||| get contact "phoneNumber" ||| JStr ""
    else
      get msg "from" ||| get msg "originator" ||| get msg "phoneNumber"
      ||| get msg "phone" ||| get msg "msisdn" ||| get msg "source"
      ||| JStr "Unknown".

(** [extractRecipientNumber(msg)]: computed by the handler and only logged. *)
Definition extractRecipientNumber (msg : js) : js :=
  let recipient := get msg "recipient" in
  if truthy recipient then
    let contact := get recipient "contact" in
    if truthy contact then
      get contact "identifierValue" ||| get contact "platformAddress"
      ||| get contact "msisdn" ||| JStr ""
    else
      get recipient "identifierValue" ||| get recipient "platformAddress"
      ||| get recipient "msisdn" ||| JStr ""
  else
    get msg "to" ||| get msg "destination" ||| recipient ||| JStr "".

(** [a ?? b] on the early [return]s of [extractMessageText]. *)
Definition orelse {A} (a b : option A) : option A :=
  match a with Some _ => a | None => b end.
Infix "<|>" := orelse (at level 55, right associativity).

(** [extractMessageText(msg)]; [None] is the [TypeError] of a [String(...)]
    that throws.  Each branch is [Some r] when it returns [r]. *)
Definition extractMessageText (msg : js) : option string :=
  let body := get msg "body" in
  let content := get msg "content" in
  let from_body :=
    if truthy body then
      (let t := get body "text" in
       if truthy t then
         match t with
         | JStr s => Some (Some s)
         | _ => if truthy (get t "text") then Some (js_to_string (get t "text")) else None
         end
       else None)
      <|> (match body with JStr s => Some (Some s) | _ => None end)
    else None in
  let from_preview :=
    if truthy (get_opt (get msg "preview") "text")
    then Some (js_to_string (get (get msg "preview") "text")) else None in
  let from_content :=
    if truthy content then
      match content with
      | JStr s => Some (Some s)
      | _ => if truthy (get content "text") then Some (js_to_string (get content "text")) else None
      end
    else None in
  let from_message :=
    if truthy (get msg "message") then Some (js_to_string (get msg "message")) else None in
  let from_text :=
    if truthy (get msg "text") then Some (js_to_string (get msg "text")) else None in
  let from_content_string :=
    match content with JStr s => Some (Some s) | _ => None end in
  let from_body_object :=
    if truthy body then
      match body with
      | JObj _ | JArr _ => Some (Some (json_stringify body))
      | _ => None
      end
    else None in
  match from_body <|> from_preview <|> from_content <|> from_message
        <|> from_text <|> from_content_string <|> from_body_object with
  | Some r => r
  | None => Some ""
  end.

(** [extractConversationId(body, payload)] *)
Definition extractConversationId (body payload : js) : js :=
  get payload "conversationId" ||| get payload "conversation_id"
  ||| get_opt (get payload "conversation") "id"
  ||| get body "conversationId" ||| get body "conversation_id"
  ||| get_opt (get body "conversation") "id"
  ||| get_opt (get payload "context") "conversationId"
  ||| get_opt (get payload "context") "conversation_id"
  ||| JNull.

(** STEP 3: [payloadForId] and [messageId]. *)
Definition payloadForId (body : js) : js :=
  if truthy (get body "payload")
     && (is_str (get body "service") "channels" || is_str (get body "event") "sms.inbound")
  then get body "payload" else body.

Definition message_id_of (body : js) : js :=
  extractMessageId (payloadForId body) ||| extractMessageId body.

(** STEP 4: the nested payload. *)
Definition select_payload (body : js) : js :=
  if truthy (get body "payload") && is_str (get body "service") "channels" then get body "payload"
  else if truthy (get body "data") then get body "data"
  else if truthy (get_opt (get body "event") "data") then get (get body "event") "data"
  else if truthy (get body "event") then get body "event"
  else if truthy (get body "message") then get body "message"
  else body.

(** STEP 2: the verification request test
    [body.type === 'webhook_verification' || body.challenge]. *)
Definition is_verification (body : js) : bool :=
  is_str (get body "type") "webhook_verification" || truthy (get body "challenge").

(* ------------------------------------------------------------------ *)
(** ** Collaborators and the state they act on *)

(** A row of the Airtable "Phone Numbers" table. *)
Record phone_rec := mk_phone_rec {
  ph_id : nat;
  ph_phone : string;   (* 'Phone Number' *)
  ph_message : string  (* 'Message' *)
}.

(** A row of the Airtable "Payments" table: its record id and its fields
    ('Phone Number', 'Tier', 'Amount', 'Status', 'Stripe ... ID', ...). *)
Record payment_rec := mk_payment_rec {
  pay_id : nat;
  pay_fields : list (string * js)
}.

(** The reply texts of the message templates. *)
Record templates := mk_templates {
  loveReply : string;
  unsubReply : string;
  stopReply : string
}.

(** [defaultContent.messages] (src/app/lib/content.ts). *)
Definition default_templates : templates := {|
  loveReply := "Thanks for joining The Weft! Click here: {link}";
  unsubReply := "You have been successfully unsubscribed. You are now free tier user. Thank you for being part of The Weft!";
  stopReply := "You have been successfully unsubscribed. You will no longer receive messages. Reply LOVE to rejoin."
|}.

(** The calls the handler makes to its collaborators, as they are issued. *)
Inductive call : Type :=
(* Airtable (record store) *)
| FindByPhone (phone : string)
| CreatePhoneRecord (phone message : string)
| UpdatePhoneRecord (id : nat) (phone message : string)
| FindPaymentByPhone (phone : string)
| UpdatePaymentRecord (id : nat) (fields : list (string * js))
| GetMessageTemplates
(* Stripe *)
| CancelSubscription (subscription_id : string)
(* Bird messaging API *)
| ConversationSend (conversation_id : string) (text : string)
| SendSMS (phone message : string)
| SendSMSDirect (phone message : string).

(** How a call ended: [Ok]; [NotOk] is an HTTP answer whose [response.ok]
    is false (only the raw [fetch] of [sendSMSInConversation] looks at it,
    the library wrappers throw on it); [Throws] is an exception. *)
Inductive answer : Type := Ok | NotOk | Throws.

Definition store_call (c : call) : bool :=
  match c with
  | FindByPhone _ | CreatePhoneRecord _ _ | UpdatePhoneRecord _ _ _
  | FindPaymentByPhone _ | UpdatePaymentRecord _ _ | GetMessageTemplates => true
  | _ => false
  end.

(** The state of the process and of the outside world.  [oracle n c] is
    how the [n]-th collaborator call, [c], ends: the environment may fail
    any call at any time.  [trace] lists the calls made so far with how
    they ended. *)
Record world := mk_world {
  phones : list phone_rec;
  payments : list payment_rec;
  msg_templates : templates;
  processed : list js;   (* processedMessageIds, in insertion order *)
  trace : list (call * answer);
  next_id : nat;
  bird_api_key : bool;   (* process.env.BIRD_API_KEY || MESSAGEBIRD_API_KEY set *)
  bird_channel_id : bool;(* process.env.BIRD_CHANNEL_ID set *)
  ngrok_url : string;    (* process.env.NGROK_URL, "" when unset *)
  oracle : nat -> call -> answer;
  clock : nat -> string  (* new Date().toISOString() when the n-th call is made *)
}.

Definition set_phones (w : world) (ps : list phone_rec) : world :=
  mk_world ps (payments w) (msg_templates w) (processed w) (trace w) (next_id w)
    (bird_api_key w) (bird_channel_id w) (ngrok_url w) (oracle w) (clock w).
Definition set_payments (w : world) (ps : list payment_rec) : world :=
  mk_world (phones w) ps (msg_templates w) (processed w) (trace w) (next_id w)
    (bird_api_key w) (bird_channel_id w) (ngrok_url w) (oracle w) (clock w).
Definition set_processed (w : world) (ids : list js) : world :=
  mk_world (phones w) (payments w) (msg_templates w) ids (trace w) (next_id w)
    (bird_api_key w) (bird_channel_id w) (ngrok_url w) (oracle w) (clock w).
Definition set_trace (w : world) (t : list (call * answer)) : world :=
  mk_world (phones w) (payments w) (msg_templates w) (processed w) t (next_id w)
    (bird_api_key w) (bird_channel_id w) (ngrok_url w) (oracle w) (clock w).
Definition set_next_id (w : world) (n : nat) : world :=
  mk_world (phones w) (payments w) (msg_templates w) (processed w) (trace w) n
    (bird_api_key w) (bird_channel_id w) (ngrok_url w) (oracle w) (clock w).

(* ------------------------------------------------------------------ *)
(** ** The async/exception monad

    An [async] function is a state transformer that either returns or
    throws; what it did to the world before throwing stays done. *)

Inductive outcome (A : Type) : Type :=
| Ret (a : A)
| Exn (message : string).
Arguments Ret {A} a.
Arguments Exn {A} message.

Definition M (A : Type) : Type := world -> outcome A * world.

Definition ret {A} (a : A) : M A := fun w => (Ret a, w).
Definition throw {A} (msg : string) : M A := fun w => (Exn msg, w).
Definition bind {A B} (c : M A) (f : A -> M B) : M B :=
  fun w => match c w with
           | (Ret a, w') => f a w'
           | (Exn e, w') => (Exn e, w')
           end.
(** [try { c } catch (e) { h(e) }] *)
Definition try_catch {A} (c : M A) (h : string -> M A) : M A :=
  fun w => match c w with
           | (Ret a, w') => (Ret a, w')
           | (Exn e, w') => h e w'
           end.
Definition read {A} (f : world -> A) : M A := fun w => (Ret (f w), w).
Definition update (f : world -> world) : M unit := fun w => (Ret tt, f w).

Notation "x <- c ;; k" := (bind c (fun x => k))
  (at level 61, c at next level, right associativity).
Notation "c ;;; k" := (bind c (fun _ => k)) (at level 61, right associativity).

(** Issue call [c]; [ready = false] means the callee throws before it
    reaches the network (a missing configuration or a rejected argument).
    The call and how it ended are appended to the trace. *)
Definition invoke (c : call) (ready : bool) : M answer :=
  fun w =>
    let a := if ready then oracle w (length (trace w)) c else Throws in
    (Ret a, set_trace w (trace w ++ [(c, a)])).

(** A library call that throws unless it ends [Ok]. *)
Definition invoke_ok (c : call) (ready : bool) : M unit :=
  a <- invoke c ready ;;
  match a with
  | Ok => ret tt
  | _ => throw "request failed"
  end.

(* ------------------------------------------------------------------ *)
(** ** Airtable service (src/app/lib/airtable.ts) *)

(** The first row whose 'Phone Number' is [phone] (the
    [filterByFormula: {Phone Number} = "..."] query, first record). *)
Fixpoint find_phone (phone : string) (ps : list phone_rec) : option phone_rec :=
  match ps with
  | [] => None
  | r :: ps' => if String.eqb (ph_phone r) phone then Some r else find_phone phone ps'
  end.

(** [findByPhone(phoneNumber)]: an empty number is answered [null]
    without a query. *)
Definition findByPhone (phoneNumber : string) : M (option phone_rec) :=
  if String.eqb phoneNumber "" then ret None
  else invoke_ok (FindByPhone phoneNumber) true ;;;
       ps <- read phones ;;
       ret (find_phone phoneNumber ps).

(** [createPhoneRecord(phoneNumber, message)] *)
Definition createPhoneRecord (phoneNumber message : string) : M unit :=
  invoke_ok (CreatePhoneRecord phoneNumber message) true ;;;
  update (fun w =>
    set_next_id
      (set_phones w (phones w ++ [mk_phone_rec (next_id w) phoneNumber message]))
      (S (next_id w))).

(** [updatePhoneRecord(recordId, phoneNumber, message)] (a PATCH of the
    row with that id). *)
Definition updatePhoneRecord (recordId : nat) (phoneNumber message : string) : M unit :=
  invoke_ok (UpdatePhoneRecord recordId phoneNumber message) true ;;;
  update (fun w =>
    set_phones w
      (map (fun r => if Nat.eqb (ph_id r) recordId
                     then mk_phone_rec recordId phoneNumber message else r)
           (phones w))).

Fixpoint find_payment (phone : string) (ps : list payment_rec) : option payment_rec :=
  match ps with
  | [] => None
  | r :: ps' =>
      if is_str (find_prop "Phone Number" (pay_fields r)) phone then Some r
      else find_payment phone ps'
  end.

(** Modelled from the spec: [airtableService.findPaymentByPhone] is not
    in src/.  The spec's [find_payment_by_phone(phone) -> Record|null]:
    one query of the Payments table for the record of that phone number,
    which throws when the store fails. *)
Definition findPaymentByPhone (phoneNumber : string) : M (option payment_rec) :=
  invoke_ok (FindPaymentByPhone phoneNumber) true ;;;
  ps <- read payments ;;
  ret (find_payment phoneNumber ps).

(** The [paymentData] argument of [updatePaymentRecord]. *)
Record payment_data := mk_payment_data {
  pd_email : option string;
  pd_phoneNumber : option string;
  pd_tier : option string;
  pd_amount : option string;   (* a number, as [String(n)] writes it *)
  pd_paymentType : option string;
  pd_stripeCustomerId : option string;
  pd_stripeSubscriptionId : option string;
  pd_stripePaymentIntentId : option string;
  pd_stripeSessionId : option string;
  pd_status : option string
}.

Definition opt_field (name : string) (v : option js) : list (string * js) :=
  match v with Some x => [(name, x)] | None => [] end.

(** The fields of [paymentData] that are not [undefined], in the order
    [updatePaymentRecord] adds them. *)
Definition payment_data_fields (d : payment_data) : list (string * js) :=
  opt_field "Email" (option_map JStr (pd_email d))
  ++ opt_field "Phone Number" (option_map JStr (pd_phoneNumber d))
  ++ opt_field "Tier" (option_map JStr (pd_tier d))
  ++ opt_field "Amount" (option_map JNum (pd_amount d))
  ++ opt_field "Payment Type" (option_map JStr (pd_paymentType d))
  ++ opt_field "Stripe Customer ID" (option_map JStr (pd_stripeCustomerId d))
  ++ opt_field "Stripe Subscription ID" (option_map JStr (pd_stripeSubscriptionId d))
  ++ opt_field "Stripe Payment Intent ID" (option_map JStr (pd_stripePaymentIntentId d))
  ++ opt_field "Stripe Session ID" (option_map JStr (pd_stripeSessionId d))
  ++ opt_field "Status" (option_map JStr (pd_status d)).

(** A PATCH: each given field overwrites the stored one or is added. *)
Fixpoint set_field (k : string) (v : js) (fs : list (string * js)) : list (string * js) :=
  match fs with
  | [] => [(k, v)]
  | (k', v') :: fs' => if String.eqb k k' then (k, v) :: fs' else (k', v') :: set_field k v fs'
  end.

Definition patch_fields (upd fs : list (string * js)) : list (string * js) :=
  fold_left (fun acc kv => set_field (fst kv) (snd kv) acc) upd fs.

(** The [fields] object [updatePaymentRecord] builds: 'Last Updated' set
    to the current time [now], then the given fields. *)
Definition update_fields (now : string) (d : payment_data) : list (string * js) :=
  ("Last Updated", JStr now) :: payment_data_fields d.

(** [updatePaymentRecord(recordId, paymentData)] *)
Definition updatePaymentRecord (recordId : nat) (d : payment_data) : M unit :=
  now <- read (fun w => clock w (length (trace w))) ;;
  let fields := update_fields now d in
  invoke_ok (UpdatePaymentRecord recordId fields) true ;;;
  update (fun w =>
    set_payments w
      (map (fun r => if Nat.eqb (pay_id r) recordId
                     then mk_payment_rec recordId (patch_fields fields (pay_fields r)) else r)
           (payments w))).

(** Modelled from the spec: [airtableService.getMessageTemplates] is not
    in src/.  The reply texts are read from the store; as the
    [getMessageTemplates] of src/app/lib/content.ts does, a failed read
    falls back to the default texts, so the spec's replies ("always send a
    fixed confirmation reply") are always produced. *)
Definition getMessageTemplates : M templates :=
  a <- invoke GetMessageTemplates true ;;
  match a with
  | Ok => read msg_templates
  | _ => ret default_templates
  end.

(* ------------------------------------------------------------------ *)
(** ** Stripe and Bird (src/app/lib/stripe.ts, src/app/lib/bird.ts) *)

(** [stripe.subscriptions.cancel(id)] *)
Definition cancel_subscription (subscription_id : string) : M unit :=
  invoke_ok (CancelSubscription subscription_id) true.

(** [sendSMS(phoneNumber, message)]: it throws on a missing
    configuration, a blank number or a blank message, then finds or
    creates the conversation and posts into it, throwing on any failure. *)
Definition sendSMS (phoneNumber message : string) : M unit :=
  key <- read bird_api_key ;;
  channel <- read bird_channel_id ;;
  invoke_ok (SendSMS phoneNumber message)
    (key && channel && negb (String.eqb (trim phoneNumber) "")
     && negb (String.eqb (trim message) "")).

(** [sendSMSDirect(phoneNumber, message)]: a post to the channel. *)
Definition sendSMSDirect (phoneNumber message : string) : M unit :=
  key <- read bird_api_key ;;
  channel <- read bird_channel_id ;;
  invoke_ok (SendSMSDirect phoneNumber message) (key && channel).

(* ------------------------------------------------------------------ *)
(** ** The webhook route (POST /bird-sms-webhook) *)

(** [sendSMSInConversation(phoneNumber, message, conversationId)].
    [BIRD_WORKSPACE_ID] has a default value, so only the API key can be
    missing. *)
Definition sendSMSInConversation (phoneNumber message : string) (conversationId : js)
  : M bool :=
  try_catch
    (key <- read bird_api_key ;;
     if negb key then throw "Bird API configuration missing" else
     let normalizedPhone :=
       if starts_with "+" phoneNumber then trim phoneNumber
       else "+" ++ trim phoneNumber in
     sent <- (if truthy conversationId then
                (* [`${conversationId}`] in the log line and the URL *)
                match js_to_string conversationId with
                | None => throw "TypeError: Cannot convert object to primitive value"
                | Some cid =>
                    a <- invoke (ConversationSend cid (trim message)) true ;;
                    match a with
                    | Ok => ret true
                    | NotOk => ret false          (* fall through to sendSMS *)
                    | Throws => throw "fetch failed"
                    end
                end
              else ret false) ;;
     if sent then ret true
     else sendSMS normalizedPhone message ;;; ret true)
    (fun _ =>
       try_catch (sendSMSDirect phoneNumber message ;;; ret true)
                 (fun _ => ret false)).

(** [getBaseUrl()] *)
Definition strip_trailing_slash (s : string) : string :=
  let n := String.length s in
  if Nat.ltb 0 n && String.eqb (substring (n - 1) 1 s) "/" then substring 0 (n - 1) s else s.

Definition getBaseUrl (ngrokUrl : string) : string :=
  if String.eqb ngrokUrl "" then "http://localhost:3000" else strip_trailing_slash ngrokUrl.

(** [sendLoveReply(phoneNumber, conversationId)] *)
Definition sendLoveReply (phoneNumber : string) (conversationId : js) : M bool :=
  try_catch
    (messages <- getMessageTemplates ;;
     baseUrl <- read (fun w => getBaseUrl (ngrok_url w)) ;;
     let welcomeLink := baseUrl ++ "/?phone=" ++ encode_uri_component phoneNumber in
     let replyMessage := replace_first "{link}" welcomeLink (loveReply messages) in
     sendSMSInConversation phoneNumber replyMessage conversationId)
    (fun _ => ret false).

(** [sendUnsubReply(phoneNumber, conversationId)] *)
Definition sendUnsubReply (phoneNumber : string) (conversationId : js) : M bool :=
  try_catch
    (messages <- getMessageTemplates ;;
     sendSMSInConversation phoneNumber (unsubReply messages) conversationId)
    (fun _ => ret false).

(** [sendStopReply(phoneNumber, conversationId)] *)
Definition sendStopReply (phoneNumber : string) (conversationId : js) : M bool :=
  try_catch
    (messages <- getMessageTemplates ;;
     sendSMSInConversation phoneNumber (stopReply messages) conversationId)
    (fun _ => ret false).

(** The update both workflows write: tier "free", amount 0, the given
    status, the four Stripe identifiers cleared. *)
Definition free_tier_update (status : string) : payment_data := {|
  pd_email := None; pd_phoneNumber := None;
  pd_tier := Some "free"; pd_amount := Some "0"; pd_paymentType := None;
  pd_stripeCustomerId := Some ""; pd_stripeSubscriptionId := Some "";
  pd_stripePaymentIntentId := Some ""; pd_stripeSessionId := Some "";
  pd_status := Some status
|}.

(** [processStopRequest(phoneNumber)] *)
Definition processStopRequest (phoneNumber : string) : M bool :=
  try_catch
    (paymentRecord <- findPaymentByPhone phoneNumber ;;
     match paymentRecord with
     | None => ret true
     | Some r =>
         let status := find_prop "Status" (pay_fields r) in
         let stripeSubscriptionId := find_prop "Stripe Subscription ID" (pay_fields r) in
         (match stripeSubscriptionId with
          | JStr sid =>
              if truthy stripeSubscriptionId && is_str status "active"
              then try_catch (cancel_subscription sid) (fun _ => ret tt)
              else ret tt
          | _ => ret tt
          end) ;;;
         updatePaymentRecord (pay_id r) (free_tier_update "cancelled") ;;;
         ret true
     end)
    (fun _ => ret false).

(** [processUnsubscription(phoneNumber)] *)
Definition processUnsubscription (phoneNumber : string) : M bool :=
  try_catch
    (paymentRecord <- findPaymentByPhone phoneNumber ;;
     match paymentRecord with
     | None => ret false
     | Some r =>
         let tier := find_prop "Tier" (pay_fields r) in
         let status := find_prop "Status" (pay_fields r) in
         let stripeSubscriptionId := find_prop "Stripe Subscription ID" (pay_fields r) in
         if negb (truthy tier) || is_str tier "free" || negb (is_str status "active")
         then ret false  (* a throw of the log line's [`${tier}`] is also answered false *)
         else
           (match stripeSubscriptionId with
            | JStr sid =>
                if truthy stripeSubscriptionId
                then try_catch (cancel_subscription sid) (fun _ => ret tt)
                else ret tt
            | _ => ret tt
            end) ;;;
           updatePaymentRecord (pay_id r) (free_tier_update "completed") ;;;
           ret true
     end)
    (fun _ => ret false).

Definition MAX_CACHE_SIZE : nat := 10000.

(** [processedMessageIds.add(x)] *)
Definition set_add (x : js) (s : list js) : list js :=
  if existsb (same_value_zero x) s then s else s ++ [x].

(** STEP 15: mark the message id, evicting the oldest id on overflow. *)
Definition evict_oldest (s : list js) : list js :=
  if Nat.ltb MAX_CACHE_SIZE (length s) then
    match s with
    | firstId :: rest => if truthy firstId then rest else s
    | [] => s
    end
  else s.

Definition mark_processed (messageId : js) : M unit :=
  if truthy messageId
  then update (fun w => set_processed w (evict_oldest (set_add messageId (processed w))))
  else ret tt.

(** The JSON answers of the route. *)
Inductive response : Type :=
| InvalidJson                                  (* status 400 *)
| Verified (challenge : js)                    (* { challenge, verified: true } *)
| Duplicate (messageId : js)                   (* action: 'duplicate' *)
| NoPhone (messageId : js)                     (* warning: 'No valid phone number found' *)
| EmptyText (messageId : js) (phone : js)      (* warning: 'Empty message text' *)
| Processed (messageId : js) (phone message : string) (created : bool)
            (replySent unsubProcessed stopProcessed : bool)
| Failed (error : string) (messageId : js).    (* the catch block *)

(** The HTTP status of each answer: 400 is only written for the invalid
    JSON body, every other [NextResponse.json] of the route uses 200. *)
Definition http_status (r : response) : nat :=
  match r with InvalidJson => 400 | _ => 200 end.

(** STEP 12 and STEP 13; the result tells whether the phone existed. *)
Definition persist_message (normalizedPhone messageText : string) : M bool :=
  existingRecord <- findByPhone normalizedPhone ;;
  match existingRecord with
  | Some r => updatePhoneRecord (ph_id r) normalizedPhone messageText ;;; ret true
  | None => createPhoneRecord normalizedPhone messageText ;;; ret false
  end.

(** [messageUpper = messageText.trim().toUpperCase()] compared with the
    keywords. *)
Definition is_love (messageText : string) : bool :=
  upper_equals (trim messageText) "LOVE".
Definition is_unsub (messageText : string) : bool :=
  upper_equals (trim messageText) "UNSUB" || upper_equals (trim messageText) "UNSUBSCRIBE".
Definition is_stop (messageText : string) : bool :=
  upper_equals (trim messageText) "STOP".

(** STEP 14: the keyword workflows; the result is
    [(replySent, unsubProcessed, stopProcessed)]. *)
Definition dispatch_keywords (normalizedPhone messageText : string) (conversationId : js)
  : M (bool * bool * bool) :=
  replySent <- (if is_love messageText
                then sendLoveReply normalizedPhone conversationId else ret false) ;;
  unsubProcessed <- (if is_unsub messageText
                     then u <- processUnsubscription normalizedPhone ;;
                          sendUnsubReply normalizedPhone conversationId ;;;
                          ret u
                     else ret false) ;;
  stopProcessed <- (if is_stop messageText
                    then s <- processStopRequest normalizedPhone ;;
                         sendStopReply normalizedPhone conversationId ;;;
                         ret s
                    else ret false) ;;
  ret (replySent, unsubProcessed, stopProcessed).

(** STEP 3 (the cache test) to STEP 16: the part of the [try] block after
    the verification test, with [messageId] already extracted. *)
Definition process_message (body messageId : js) : M response :=
  cache <- read processed ;;
  if truthy messageId && existsb (same_value_zero messageId) cache
  then ret (Duplicate messageId)
  else
    let payload := select_payload body in
    let phoneNumber := extractSenderNumber payload in
    match extractMessageText payload with
    | None => throw "TypeError: Cannot convert object to primitive value"
    | Some messageText =>
    let _recipientNumber := extractRecipientNumber payload in
    let conversationId := extractConversationId body payload in
    if negb (truthy phoneNumber) || is_str phoneNumber "Unknown"
    then ret (NoPhone messageId)
    else if String.eqb messageText "" || String.eqb (trim messageText) ""
    then ret (EmptyText messageId phoneNumber)
    else
      match phoneNumber with
      | JStr p =>
          let normalizedPhone := trim (remove_ws p) in
          existed <- persist_message normalizedPhone messageText ;;
          flags <- dispatch_keywords normalizedPhone messageText conversationId ;;
          let '(replySent, unsubProcessed, stopProcessed) := flags in
          mark_processed messageId ;;;
          ret (Processed messageId normalizedPhone messageText (negb existed)
                 replySent unsubProcessed stopProcessed)
      | _ => throw "TypeError: phoneNumber.replace is not a function"
      end
    end.

(** [POST(request)], given the outcome of [JSON.parse(rawBody)]: [None]
    when it throws. *)
Definition POST (parsed : option js) : M response :=
  match parsed with
  | None => ret InvalidJson
  | Some body =>
      (* inside the try block: [body.type] throws on a null body, and the
         catch answers with [messageId] still null *)
      if nullish body
      then ret (Failed "TypeError: Cannot read properties of null (reading 'type')" JNull)
      else if is_verification body
      then ret (Verified (get body "challenge" ||| get body "verification_token"))
      else
        let messageId := message_id_of body in
        try_catch (process_message body messageId)
                  (fun e => ret (Failed e messageId))
  end.

(* ------------------------------------------------------------------ *)
(** * Reasoning about runs *)

(** [frame R c]: every run of [c] relates its start and end worlds by [R]. *)
Definition frame (R : world -> world -> Prop) {A} (c : M A) : Prop :=
  forall w o w', c w = (o, w') -> R w w'.

(** [returns P c]: every value [c] returns satisfies [P]. *)
Definition returns {A} (P : A -> Prop) (c : M A) : Prop :=
  forall w a w', c w = (Ret a, w') -> P a.

(** The relations used with [frame] are preorders on worlds. *)
Class WorldPreorder (R : world -> world -> Prop) := {
  wp_refl : forall w, R w w;
  wp_trans : forall w1 w2 w3, R w1 w2 -> R w2 w3 -> R w1 w3
}.

Section Frames.
Context {R : world -> world -> Prop} {HR : WorldPreorder R}.

Lemma frame_ret {A} (a : A) : frame R (ret a).
Proof. intros w o w' H; inversion H; subst; apply wp_refl. Qed.

Lemma frame_throw {A} (e : string) : frame R (@throw A e).
Proof. intros w o w' H; inversion H; subst; apply wp_refl. Qed.

Lemma frame_read {A} (f : world -> A) : frame R (read f).
Proof. intros w o w' H; inversion H; subst; apply wp_refl. Qed.

Lemma frame_update (f : world -> world) :
  (forall w, R w (f w)) -> frame R (update f).
Proof. intros Hf w o w' H; inversion H; subst; apply Hf. Qed.

Lemma frame_invoke (c : call) (ready : bool) :
  (forall w a, R w (set_trace w (trace w ++ [(c, a)]))) -> frame R (invoke c ready).
Proof. intros Hc w o w' H; inversion H; subst; apply Hc. Qed.

Lemma frame_bind {A B} (c : M A) (f : A -> M B) :
  frame R c -> (forall a, frame R (f a)) -> frame R (bind c f).
Proof.
  intros Hc Hf w o w' H; unfold bind in H.
  destruct (c w) as [[a|e] w1] eqn:E.
  - eapply wp_trans; [eapply Hc; exact E | eapply Hf; exact H].
  - inversion H; subst; eapply Hc; exact E.
Qed.

Lemma frame_try {A} (c : M A) (h : string -> M A) :
  frame R c -> (forall e, frame R (h e)) -> frame R (try_catch c h).
Proof.
  intros Hc Hh w o w' H; unfold try_catch in H.
  destruct (c w) as [[a|e] w1] eqn:E.
  - inversion H; subst; eapply Hc; exact E.
  - eapply wp_trans; [eapply Hc; exact E | eapply Hh; exact H].
Qed.

Lemma frame_invoke_ok (c : call) (ready : bool) :
  (forall w a, R w (set_trace w (trace w ++ [(c, a)]))) -> frame R (invoke_ok c ready).
Proof.
  intros Hc; unfold invoke_ok; apply frame_bind; [apply frame_invoke; exact Hc|].
  intros [| |]; [apply frame_ret | apply frame_throw | apply frame_throw].
Qed.
End Frames.

Lemma returns_ret {A} (P : A -> Prop) (a : A) : P a -> returns P (ret a).
Proof. intros HP w a' w' H; inversion H; subst; exact HP. Qed.

Lemma returns_throw {A} (P : A -> Prop) e : returns P (throw e).
Proof. intros w a w' H; inversion H. Qed.

Lemma returns_bind {A B} (P : B -> Prop) (c : M A) (f : A -> M B) :
  (forall a, returns P (f a)) -> returns P (bind c f).
Proof.
  intros Hf w b w' H; unfold bind in H.
  destruct (c w) as [[a|e] w1]; [eapply Hf; exact H | discriminate].
Qed.

Lemma returns_try {A} (P : A -> Prop) (c : M A) (h : string -> M A) :
  returns P c -> (forall e, returns P (h e)) -> returns P (try_catch c h).
Proof.
  intros Hc Hh w a w' H; unfold try_catch in H.
  destruct (c w) as [[a'|e] w1] eqn:E.
  - inversion H; subst; eapply Hc; exact E.
  - eapply Hh; exact H.
Qed.

Lemma returns_read {A} (P : A -> Prop) (f : world -> A) :
  (forall w, P (f w)) -> returns P (read f).
Proof. intros Hf w a w' H; inversion H; subst; apply Hf. Qed.

(** A computation that catches everything never throws. *)
Definition total {A} (c : M A) : Prop := forall w, exists a w', c w = (Ret a, w').

Lemma total_ret {A} (a : A) : total (ret a).
Proof. intros w; exists a, w; reflexivity. Qed.

Lemma total_try {A} (c : M A) (h : string -> M A) :
  (forall e, total (h e)) -> total (try_catch c h).
Proof.
  intros Hh w; unfold try_catch.
  destruct (c w) as [[a|e] w1]; [exists a, w1; reflexivity | apply Hh].
Qed.

Lemma total_bind {A B} (c : M A) (f : A -> M B) :
  total c -> (forall a, total (f a)) -> total (bind c f).
Proof.
  intros Hc Hf w; unfold bind.
  destruct (Hc w) as (a & w1 & ->); apply Hf.
Qed.

Ltac frame_step :=
  match goal with
  | |- frame _ (bind _ _) => apply frame_bind; [ | intro ]
  | |- frame _ (try_catch _ _) => apply frame_try; [ | intro ]
  | |- frame _ (ret _) => apply frame_ret
  | |- frame _ (throw _) => apply frame_throw
  | |- frame _ (read _) => apply frame_read
  | |- frame _ (invoke_ok _ _) => apply frame_invoke_ok
  | |- frame _ (invoke _ _) => apply frame_invoke
  | |- frame _ (update _) => apply frame_update
  | |- frame _ (if ?b then _ else _) => destruct b
  | |- frame _ (match ?x with _ => _ end) => destruct x
  end.

(** The parts of the world a computation leaves alone. *)
Definition same_cache (w w' : world) : Prop := processed w' = processed w.
Definition same_phones (w w' : world) : Prop := phones w' = phones w.
Definition same_payments (w w' : world) : Prop := payments w' = payments w.
Definition same_env (w w' : world) : Prop :=
  msg_templates w' = msg_templates w /\ oracle w' = oracle w
  /\ bird_api_key w' = bird_api_key w /\ bird_channel_id w' = bird_channel_id w
  /\ ngrok_url w' = ngrok_url w.
(** The trace only grows, by calls satisfying [Q]. *)
Definition calls_only (Q : call -> bool) (w w' : world) : Prop :=
  exists ts, trace w' = (trace w ++ ts)%list /\ Forall (fun ca => Q (fst ca) = true) ts.

Lemma calls_only_refl Q w : calls_only Q w w.
Proof. exists []; split; [rewrite app_nil_r; reflexivity | constructor]. Qed.

Lemma calls_only_trans Q w1 w2 w3 :
  calls_only Q w1 w2 -> calls_only Q w2 w3 -> calls_only Q w1 w3.
Proof.
  intros (ts1 & E1 & F1) (ts2 & E2 & F2); exists (ts1 ++ ts2)%list; split.
  - rewrite E2, E1, app_assoc; reflexivity.
  - apply Forall_app; split; assumption.
Qed.

#[export] Instance same_cache_pre : WorldPreorder same_cache.
Proof. split; unfold same_cache; congruence. Qed.
#[export] Instance same_phones_pre : WorldPreorder same_phones.
Proof. split; unfold same_phones; congruence. Qed.
#[export] Instance same_payments_pre : WorldPreorder same_payments.
Proof. split; unfold same_payments; congruence. Qed.
#[export] Instance same_env_pre : WorldPreorder same_env.
Proof. split; unfold same_env; intuition congruence. Qed.
#[export] Instance calls_only_pre Q : WorldPreorder (calls_only Q).
Proof. split; [apply calls_only_refl | apply calls_only_trans]. Qed.

Ltac frame_side :=
  first
    [ intros; reflexivity
    | intros; repeat split; reflexivity
    | intros; eexists; split; [reflexivity | repeat constructor]
    | intros; exists []; split; [rewrite app_nil_r; reflexivity | constructor] ].

Ltac frame_auto := repeat frame_step; try frame_side.

Definition not_cancel (c : call) : bool :=
  match c with CancelSubscription _ => false | _ => true end.
Definition not_payment_call (c : call) : bool :=
  match c with FindPaymentByPhone _ | UpdatePaymentRecord _ _ => false | _ => true end.

Lemma persist_message_frames ph msg :
  frame same_cache (persist_message ph msg) /\ frame same_payments (persist_message ph msg)
  /\ frame same_env (persist_message ph msg)
  /\ frame (calls_only not_cancel) (persist_message ph msg)
  /\ frame (calls_only not_payment_call) (persist_message ph msg).
Proof.
  unfold persist_message, findByPhone, updatePhoneRecord, createPhoneRecord.
  split; [|split; [|split; [|split]]]; frame_auto.
Qed.

Ltac unfold_handler :=
  unfold dispatch_keywords, sendLoveReply, sendUnsubReply, sendStopReply,
    sendSMSInConversation, sendSMS, sendSMSDirect, getMessageTemplates,
    processUnsubscription, processStopRequest, findPaymentByPhone,
    updatePaymentRecord, cancel_subscription, mark_processed, persist_message,
    findByPhone, updatePhoneRecord, createPhoneRecord.

Lemma dispatch_keywords_frames ph msg conv :
  frame same_cache (dispatch_keywords ph msg conv)
  /\ frame same_phones (dispatch_keywords ph msg conv)
  /\ frame same_env (dispatch_keywords ph msg conv).
Proof. unfold_handler; split; [|split]; frame_auto. Qed.

Lemma mark_processed_frames mid :
  frame same_phones (mark_processed mid) /\ frame same_payments (mark_processed mid)
  /\ frame same_env (mark_processed mid)
  /\ forall Q, frame (calls_only Q) (mark_processed mid).
Proof. unfold_handler; split; [|split; [|split; [|intro Q]]]; frame_auto. Qed.

Lemma reply_frames ph conv :
  frame same_payments (sendUnsubReply ph conv) /\ frame same_payments (sendStopReply ph conv)
  /\ frame (calls_only not_cancel) (sendUnsubReply ph conv)
  /\ frame (calls_only not_cancel) (sendStopReply ph conv)
  /\ frame (calls_only not_payment_call) (sendUnsubReply ph conv)
  /\ frame same_env (sendUnsubReply ph conv) /\ frame same_env (sendStopReply ph conv).
Proof. unfold_handler; repeat match goal with |- _ /\ _ => split end; frame_auto. Qed.

Lemma workflow_frames ph :
  frame same_env (processUnsubscription ph) /\ frame same_env (processStopRequest ph).
Proof. unfold_handler; split; frame_auto. Qed.

(** What a delivery answered with [Processed] went through: the checks of
    STEP 2 to STEP 10 passed, then persistence, keyword dispatch and the
    marking of the id ran in this order, each without throwing. *)
Lemma POST_processed_inv body w w' mid ph msg c rs us ss :
  POST (Some body) w = (Ret (Processed mid ph msg c rs us ss), w') ->
  nullish body = false /\ is_verification body = false /\ mid = message_id_of body
  /\ (truthy mid && existsb (same_value_zero mid) (processed w)) = false
  /\ extractMessageText (select_payload body) = Some msg
  /\ (exists p, extractSenderNumber (select_payload body) = JStr p /\ ph = trim (remove_ws p))
  /\ exists ex w1 w2,
       persist_message ph msg w = (Ret ex, w1) /\ c = negb ex
       /\ dispatch_keywords ph msg (extractConversationId body (select_payload body)) w1
          = (Ret (rs, us, ss), w2)
       /\ mark_processed mid w2 = (Ret tt, w').
Proof.
  intros H; unfold POST in H.
  destruct (nullish body) eqn:Hn; [inversion H|].
  destruct (is_verification body) eqn:Hv; [inversion H|].
  unfold try_catch in H.
  destruct (process_message body (message_id_of body) w) as [[a|e] w0] eqn:E;
    inversion H; subst; clear H.
  cbv beta iota zeta delta [process_message bind read ret throw] in E.
  destruct (truthy (message_id_of body)
            && existsb (same_value_zero (message_id_of body)) (processed w)) eqn:Hd;
    [inversion E|].
  destruct (extractMessageText (select_payload body)) as [m|] eqn:Em; [|inversion E].
  destruct (negb (truthy (extractSenderNumber (select_payload body)))
            || is_str (extractSenderNumber (select_payload body)) "Unknown");
    [inversion E|].
  destruct ((m =? "") || (trim m =? "")); [inversion E|].
  destruct (extractSenderNumber (select_payload body)) as [| | | |p| |] eqn:Hp;
    try discriminate E.
  destruct (persist_message (trim (remove_ws p)) m w)
    as [[ex|e] w1] eqn:E1; [|discriminate E].
  destruct (dispatch_keywords (trim (remove_ws p)) m
              (extractConversationId body (select_payload body)) w1)
    as [[[[rs' us'] ss']|e] w2] eqn:E2; [|discriminate E].
  destruct (mark_processed (message_id_of body) w2) as [[[]|e] w3] eqn:E3; [|discriminate E].
  inversion E; subst.
  repeat split; auto.
  - exists p; split; reflexivity.
  - exists ex, w1, w2; repeat split; auto.
Qed.

(** [select_payload] of a body that is not [null]/[undefined] is not
    [null]/[undefined] either: each branch picks a truthy value. *)
Lemma select_payload_not_nullish body :
  nullish body = false -> nullish (select_payload body) = false.
Proof.
  intros Hn; unfold select_payload.
  assert (T : forall v, truthy v = true -> nullish v = false)
    by (intros [] ?; simpl in *; congruence).
  destruct (truthy (get body "payload") && is_str (get body "service") "channels") eqn:E1;
    [apply andb_prop in E1; apply T; tauto|].
  destruct (truthy (get body "data")) eqn:E2; [apply T; exact E2|].
  destruct (truthy (get_opt (get body "event") "data")) eqn:E3;
    [apply T; unfold get_opt in E3; destruct (nullish (get body "event")); [discriminate | exact E3]|].
  destruct (truthy (get body "event")) eqn:E4; [apply T; exact E4|].
  destruct (truthy (get body "message")) eqn:E5; [apply T; exact E5|].
  exact Hn.
Qed.

(** A [null] body has no message id. *)
Lemma nullish_no_id body : nullish body = true -> truthy (message_id_of body) = false.
Proof. destruct body; try discriminate; reflexivity. Qed.

Lemma http_status_400 r : http_status r = 400 <-> r = InvalidJson.
Proof. destruct r; simpl; split; intro H; solve [reflexivity | discriminate H]. Qed.

(** The two ways a run of [process_message] can go: the id is a cached
    one and the request is answered [Duplicate] at once; or it is not, the
    answer is never [Duplicate], and the cache only changes on a run that
    reaches [Processed]. *)
Lemma process_message_run body mid w o w' :
  process_message body mid w = (o, w') ->
  ((truthy mid && existsb (same_value_zero mid) (processed w)) = true
   /\ o = Ret (Duplicate mid) /\ w' = w)
  \/ ((truthy mid && existsb (same_value_zero mid) (processed w)) = false
      /\ (forall m, o <> Ret (Duplicate m))
      /\ ((exists ph msg c rs us ss, o = Ret (Processed mid ph msg c rs us ss))
          \/ processed w' = processed w)).
Proof.
  intros E.
  cbv beta iota zeta delta [process_message bind read ret throw] in E.
  destruct (truthy mid && existsb (same_value_zero mid) (processed w)) eqn:Hd.
  { left; inversion E; subst; auto. }
  right; split; [reflexivity|].
  destruct (extractMessageText (select_payload body)) as [txt|]; cbv beta in E;
    [|inversion E; subst; split; [intros m Hm; discriminate Hm | right; reflexivity]].
  repeat match type of E with
         | (if ?b then _ else _) _ = _ => destruct b; cbv beta in E
         end;
    try (inversion E; subst; split; [intros m Hm; discriminate Hm | right; reflexivity]).
  destruct (extractSenderNumber (select_payload body)) as [| | | |p| |]; cbv beta in E;
    try (inversion E; subst; split; [intros m Hm; discriminate Hm | right; reflexivity]).
  destruct (persist_message (trim (remove_ws p)) txt w)
    as [[ex|e] w1] eqn:E1;
    pose proof (proj1 (persist_message_frames _ _) _ _ _ E1) as C1; unfold same_cache in C1.
  2: { inversion E; subst; split; [intros m Hm; discriminate Hm | right; exact C1]. }
  destruct (dispatch_keywords (trim (remove_ws p)) txt
              (extractConversationId body (select_payload body)) w1)
    as [[[[rs us] ss]|e] w2] eqn:E2;
    pose proof (proj1 (dispatch_keywords_frames _ _ _) _ _ _ E2) as C2; unfold same_cache in C2.
  2: { inversion E; subst; split; [intros m Hm; discriminate Hm | right; congruence]. }
  unfold mark_processed, update in E.
  destruct (truthy mid); inversion E; subst; split;
    try (intros m Hm; discriminate Hm); left; do 6 eexists; reflexivity.
Qed.

(** [process_message] never answers [InvalidJson], nor [Failed] (that
    answer is only written by the [catch] of [POST]). *)
Lemma process_message_answers body mid :
  returns (fun r => r <> InvalidJson /\ forall e m, r <> Failed e m) (process_message body mid).
Proof.
  cbv beta iota zeta delta [process_message].
  repeat match goal with
         | |- returns _ (bind _ _) => apply returns_bind; intro
         | |- returns _ (ret _) => apply returns_ret
         | |- returns _ (throw _) => apply returns_throw
         | |- returns _ (if ?b then _ else _) => destruct b
         | |- returns _ (match ?x with _ => _ end) => destruct x
         end; (split; [discriminate | intros ? ?; discriminate]).
Qed.

(** An id appended to a cache that did not hold it survives the eviction
    of the oldest entry. *)
Lemma evict_keeps_last s x :
  same_value_zero x x = true -> existsb (same_value_zero x) (evict_oldest (s ++ [x])) = true.
Proof.
  intros Hx; unfold evict_oldest.
  assert (L : forall l, existsb (same_value_zero x) (l ++ [x]) = true)
    by (intro l; rewrite existsb_app; simpl; rewrite Hx; apply orb_true_r).
  destruct s as [|y s'].
  - simpl app; replace (Nat.ltb MAX_CACHE_SIZE (length [x])) with false by reflexivity.
    simpl; rewrite Hx; reflexivity.
  - simpl app; destruct (Nat.ltb _ _); [destruct (truthy y)|]; simpl;
      try rewrite L; try rewrite orb_true_r; reflexivity.
Qed.

Lemma mark_processed_new mid w w' :
  truthy mid = true -> same_value_zero mid mid = true ->
  existsb (same_value_zero mid) (processed w) = false ->
  mark_processed mid w = (Ret tt, w') ->
  existsb (same_value_zero mid) (processed w') = true.
Proof.
  intros Ht Hx Hn E; unfold mark_processed, update in E; rewrite Ht in E.
  inversion E; subst; simpl; unfold set_add; rewrite Hn.
  apply evict_keeps_last; exact Hx.
Qed.

(* ------------------------------------------------------------------ *)
(** ** Sample deliveries *)

(** A process with an empty cache and empty tables, the Bird API
    configured, and collaborators answering as [orc] says. *)
Definition sample_clock : nat -> string := fun _ => "2026-01-01T00:00:00.000Z".

Definition sample_world (orc : nat -> call -> answer) (pays : list payment_rec) : world :=
  mk_world [] pays default_templates [] [] 0 true true "" orc sample_clock.

Definition all_ok : nat -> call -> answer := fun _ _ => Ok.

(** The first call of the run (the Airtable phone lookup of the first
    delivery) throws, every later call works. *)
Definition first_call_fails : nat -> call -> answer :=
  fun n _ => if Nat.eqb n 0 then Throws else Ok.

(** A flat SMS delivery with an event id. *)
Definition sms_body (eid sender text : string) : js :=
  JObj [("event_id", JStr eid); ("from", JStr sender); ("to", JStr "+15559990000");
        ("text", JStr text)].

(** A LOVE text from a new number. *)
Definition love_delivery : js := sms_body "evt-1" "+15551230000" "LOVE".



(** The Bird conversation endpoint fails with a network error, everything
    else works. *)
Definition conversation_send_throws : nat -> call -> answer :=
  fun _ c => match c with ConversationSend _ _ => Throws | _ => Ok end.

(* ------------------------------------------------------------------ *)
(** ** The reply fallback chain *)

Definition is_ok (a : answer) : bool := match a with Ok => true | _ => false end.

(** The delivery order of a reply, as the amended C9 states it: given how
    each attempt would end ([a1] for the send into the conversation, [a2]
    for the find-or-create send, [a3] for the channel-direct send), the
    attempts made, in order.  (a) is made when the API key is set and a
    conversation id is given that converts to a string; (b) when the API
    key is set and either no conversation id is given or (a) was made and
    got a non-OK HTTP answer; (c) when neither (a) nor (b) succeeded (an id
    whose conversion throws goes straight to (c)). *)
Definition reply_attempts (key : bool) (phone msg : string) (conv : js) (a1 a2 a3 : answer)
  : list (call * answer) :=
  let normalizedPhone := if starts_with "+" phone then trim phone else "+" ++ trim phone in
  let first := if key && truthy conv
               then match js_to_string conv with
                    | Some cid => [(ConversationSend cid (trim msg), a1)]
                    | None => []
                    end
               else [] in
  let second := if key && (negb (truthy conv)
                           || match js_to_string conv with
                              | Some _ => match a1 with NotOk => true | _ => false end
                              | None => false
                              end)
                then [(SendSMS normalizedPhone msg, a2)] else [] in
  let third := if existsb (fun ca => is_ok (snd ca)) (first ++ second) then []
               else [(SendSMSDirect phone msg, a3)] in
  first ++ second ++ third.

Lemma invoke_ok_run c ready w :
  exists a, invoke_ok c ready w
            = (if is_ok a then Ret tt else Exn "request failed", set_trace w (trace w ++ [(c, a)])).
Proof.
  exists (if ready then oracle w (length (trace w)) c else Throws).
  unfold invoke_ok, invoke, bind.
  destruct (if ready then oracle w (length (trace w)) c else Throws); reflexivity.
Qed.

Lemma sendSMS_run phone msg w :
  exists a, sendSMS phone msg w
            = (if is_ok a then Ret tt else Exn "request failed",
               set_trace w (trace w ++ [(SendSMS phone msg, a)])).
Proof. apply invoke_ok_run. Qed.

Lemma sendSMSDirect_run phone msg w :
  exists a, sendSMSDirect phone msg w
            = (if is_ok a then Ret tt else Exn "request failed",
               set_trace w (trace w ++ [(SendSMSDirect phone msg, a)])).
Proof. apply invoke_ok_run. Qed.

Ltac fallback :=
  match goal with
  | D : forall w1, exists a3, _ |- context [sendSMSDirect _ _ ?w1] =>
      destruct (D w1) as [a3 E3]; rewrite E3
  end.

(** How a run of [sendSMSInConversation] goes: it returns normally, the
    calls it makes are those of [reply_attempts] for some answers, and it
    returns whether one of them succeeded. *)
Lemma sendSMSInConversation_run phone msg conv w :
  exists a1 a2 a3,
    sendSMSInConversation phone msg conv w
    = (Ret (existsb (fun ca => is_ok (snd ca))
                    (reply_attempts (bird_api_key w) phone msg conv a1 a2 a3)),
       set_trace w (trace w ++ reply_attempts (bird_api_key w) phone msg conv a1 a2 a3)).
Proof.
  assert (D : forall w1, exists a3,
    try_catch (sendSMSDirect phone msg ;;; ret true) (fun _ => ret false) w1
    = (Ret (is_ok a3), set_trace w1 (trace w1 ++ [(SendSMSDirect phone msg, a3)]))).
  { intros w1; destruct (sendSMSDirect_run phone msg w1) as [a3 E3]; exists a3.
    unfold try_catch, bind; rewrite E3; destruct a3; reflexivity. }
  cbv beta delta [try_catch bind ret] in D.
  cbv beta delta [sendSMSInConversation reply_attempts try_catch bind read ret].
  set (np := if starts_with "+" phone then trim phone else "+" ++ trim phone).
  destruct (bird_api_key w) eqn:K; cbn [negb andb orb].
  2: { destruct (D w) as [a3 E3]; exists Ok, Ok, a3; cbn - [sendSMSDirect].
       rewrite E3; destruct a3; reflexivity. }
  destruct (truthy conv) eqn:C; cbn [negb andb orb].
  - destruct (js_to_string conv) as [cid|] eqn:J.
    2: { cbv beta delta [throw]; cbn - [sendSMSDirect].
         fallback; exists Ok, Ok, a3; destruct a3; reflexivity. }
    unfold invoke.
    destruct (oracle w (length (trace w)) (ConversationSend cid (trim msg))) eqn:A1.
    + exists Ok, Ok, Ok; reflexivity.
    + destruct (sendSMS_run np msg
                  (set_trace w (trace w ++ [(ConversationSend cid (trim msg), NotOk)])))
        as [a2 E2].
      cbn - [sendSMS sendSMSDirect]; rewrite E2.
      destruct a2; cbn - [sendSMSDirect].
      * exists NotOk, Ok, Ok; cbn; rewrite <- app_assoc; reflexivity.
      * fallback; exists NotOk, NotOk, a3; cbn; rewrite <- !app_assoc; destruct a3; reflexivity.
      * fallback; exists NotOk, Throws, a3; cbn; rewrite <- !app_assoc; destruct a3; reflexivity.
    + cbn - [sendSMSDirect].
      fallback; exists Throws, Ok, a3; cbn; rewrite <- !app_assoc; destruct a3; reflexivity.
  - destruct (sendSMS_run np msg w) as [a2 E2].
    cbn - [sendSMS sendSMSDirect]; rewrite E2.
    destruct a2; cbn - [sendSMSDirect].
    + exists Ok, Ok, Ok; reflexivity.
    + fallback; exists Ok, NotOk, a3; cbn; rewrite <- !app_assoc; destruct a3; reflexivity.
    + fallback; exists Ok, Throws, a3; cbn; rewrite <- !app_assoc; destruct a3; reflexivity.
Qed.

(* ------------------------------------------------------------------ *)
(** ** Records after the workflows *)

(** The Stripe subscriptions a list of calls cancels. *)
Definition cancel_ids (ts : list (call * answer)) : list string :=
  flat_map (fun ca => match fst ca with CancelSubscription s => [s] | _ => [] end) ts.

(** A payment record reset to the free tier with the given status: tier
    "free", amount 0, the four Stripe identifiers empty. *)
Definition freed_record (status : string) (r : payment_rec) : bool :=
  let fs := pay_fields r in
  is_str (find_prop "Tier" fs) "free" && same_value_zero (find_prop "Amount" fs) (JNum "0")
  && is_str (find_prop "Status" fs) status
  && forallb (fun k => is_str (find_prop k fs) "")
       ["Stripe Customer ID"; "Stripe Subscription ID"; "Stripe Payment Intent ID";
        "Stripe Session ID"].

(** The row update [updatePaymentRecord] makes to the Payments table. *)
Definition patch_payments (recordId : nat) (now : string) (d : payment_data)
  (ps : list payment_rec) : list payment_rec :=
  map (fun r => if Nat.eqb (pay_id r) recordId
                then mk_payment_rec recordId (patch_fields (update_fields now d) (pay_fields r))
                else r) ps.

Lemma find_prop_set_field k k' v fs :
  find_prop k (set_field k' v fs) = if String.eqb k k' then v else find_prop k fs.
Proof.
  induction fs as [|[k'' v'] fs IH]; simpl.
  - reflexivity.
  - destruct (String.eqb k' k'') eqn:E1; simpl.
    + apply String.eqb_eq in E1; subst k''.
      destruct (String.eqb k k'); reflexivity.
    + rewrite IH; destruct (String.eqb k k'') eqn:E2, (String.eqb k k') eqn:E3; try reflexivity.
      apply String.eqb_eq in E2; apply String.eqb_eq in E3; subst; rewrite String.eqb_refl in E1;
        discriminate.
Qed.

Lemma freed_record_patched status now i fs :
  freed_record status
    (mk_payment_rec i (patch_fields (update_fields now (free_tier_update status)) fs))
  = true.
Proof.
  unfold freed_record, patch_fields, update_fields, payment_data_fields, free_tier_update; cbn.
  repeat rewrite find_prop_set_field; cbn; rewrite !String.eqb_refl; reflexivity.
Qed.

Lemma phone_number_patched status now fs :
  find_prop "Phone Number" (patch_fields (update_fields now (free_tier_update status)) fs)
  = find_prop "Phone Number" fs.
Proof.
  unfold patch_fields, update_fields, payment_data_fields, free_tier_update; cbn.
  repeat rewrite find_prop_set_field; reflexivity.
Qed.

Lemma find_payment_patched ph ps p now status :
  find_payment ph ps = Some p ->
  find_payment ph (patch_payments (pay_id p) now (free_tier_update status) ps)
  = Some (mk_payment_rec (pay_id p)
            (patch_fields (update_fields now (free_tier_update status)) (pay_fields p))).
Proof.
  unfold patch_payments; induction ps as [|r ps IH]; [discriminate|].
  intros H; cbn [find_payment] in H; cbn [map find_payment].
  destruct (is_str (find_prop "Phone Number" (pay_fields r)) ph) eqn:E.
  - inversion H; subst; rewrite Nat.eqb_refl; cbn [pay_fields pay_id].
    rewrite phone_number_patched, E; reflexivity.
  - destruct (Nat.eqb (pay_id r) (pay_id p)); cbn [pay_fields];
      [rewrite phone_number_patched|]; rewrite E; apply IH; exact H.
Qed.

Lemma find_phone_app_new ph ps x :
  find_phone ph ps = None -> ph_phone x = ph -> find_phone ph (ps ++ [x]) = Some x.
Proof.
  intros H Hx; induction ps as [|r ps IH]; simpl in *.
  - rewrite Hx, String.eqb_refl; reflexivity.
  - destruct (String.eqb (ph_phone r) ph); [discriminate | apply IH; exact H].
Qed.

Lemma find_phone_updated ph msg ps r0 :
  find_phone ph ps = Some r0 ->
  exists r, find_phone ph (map (fun r => if Nat.eqb (ph_id r) (ph_id r0)
                                         then mk_phone_rec (ph_id r0) ph msg else r) ps) = Some r
            /\ ph_message r = msg.
Proof.
  induction ps as [|r ps IH]; simpl; [discriminate|].
  destruct (String.eqb (ph_phone r) ph) eqn:E.
  - intros H; inversion H; subst; rewrite Nat.eqb_refl; simpl; rewrite String.eqb_refl.
    eexists; split; reflexivity.
  - intros H; destruct (Nat.eqb (ph_id r) (ph_id r0)); simpl.
    + rewrite String.eqb_refl; eexists; split; reflexivity.
    + rewrite E; apply IH; exact H.
Qed.

(* ------------------------------------------------------------------ *)
(** ** Runs of the workflows *)

(** The record store answers every call successfully. *)
Definition store_ok (w : world) : Prop := forall n c, store_call c = true -> oracle w n c = Ok.

(** No active paid subscription is on record for the phone: no payment
    record, or one whose tier is empty or "free", or whose status is not
    "active". *)
Definition no_active_paid (ph : string) (ps : list payment_rec) : bool :=
  match find_payment ph ps with
  | None => true
  | Some r =>
      let tier := find_prop "Tier" (pay_fields r) in
      negb (truthy tier) || is_str tier "free"
      || negb (is_str (find_prop "Status" (pay_fields r)) "active")
  end.

(** [c] is an attempt to send [text] (the conversation endpoint is sent
    [text.trim()]). *)
Definition reply_attempt (c : call) (text : string) : bool :=
  match c with
  | ConversationSend _ t => String.eqb t (trim text)
  | SendSMS _ m | SendSMSDirect _ m => String.eqb m text
  | _ => false
  end.

Lemma cancel_ids_app t1 t2 : cancel_ids (t1 ++ t2) = (cancel_ids t1 ++ cancel_ids t2)%list.
Proof. unfold cancel_ids; apply flat_map_app. Qed.

Lemma cancel_ids_none t : Forall (fun ca => not_cancel (fst ca) = true) t -> cancel_ids t = [].
Proof.
  induction 1 as [|[c a] t Hc _ IH]; [reflexivity|].
  unfold cancel_ids in *; simpl in *; rewrite IH; destruct c; try reflexivity; discriminate.
Qed.

Definition payment_calls (t : list (call * answer)) : list call :=
  map fst (filter (fun ca => negb (not_payment_call (fst ca))) t).

Lemma payment_calls_app t1 t2 : payment_calls (t1 ++ t2) = (payment_calls t1 ++ payment_calls t2)%list.
Proof. unfold payment_calls; rewrite filter_app, map_app; reflexivity. Qed.

Lemma payment_calls_none t :
  Forall (fun ca => not_payment_call (fst ca) = true) t -> payment_calls t = [].
Proof.
  induction 1 as [|[c a] t Hc _ IH]; [reflexivity|].
  unfold payment_calls in *; simpl in *; rewrite Hc; exact IH.
Qed.

Lemma upper_equals_det s k1 k2 :
  upper_equals s k1 = true -> upper_equals s k2 = String.eqb k1 k2.
Proof.
  unfold upper_equals; destruct (upper_letters_all (utf8_chars s)) as [u|]; [|discriminate].
  intros H; apply String.eqb_eq in H; subst u; reflexivity.
Qed.

Lemma keywords_unsub msg : is_unsub msg = true -> is_love msg = false /\ is_stop msg = false.
Proof.
  unfold is_love, is_unsub, is_stop; intros H.
  apply orb_true_iff in H; destruct H as [H|H];
    rewrite !(upper_equals_det _ _ _ H); split; reflexivity.
Qed.

Lemma keywords_stop msg : is_stop msg = true -> is_love msg = false /\ is_unsub msg = false.
Proof.
  unfold is_love, is_unsub, is_stop; intros H.
  rewrite !(upper_equals_det _ _ _ H); split; reflexivity.
Qed.

Lemma dispatch_unsub_inv ph msg conv w1 w2 flags :
  is_unsub msg = true -> dispatch_keywords ph msg conv w1 = (Ret flags, w2) ->
  exists u wu o, processUnsubscription ph w1 = (Ret u, wu)
                 /\ sendUnsubReply ph conv wu = (o, w2) /\ flags = (false, u, false).
Proof.
  intros Hu E; destruct (keywords_unsub _ Hu) as [Hl Hs].
  unfold dispatch_keywords in E; rewrite Hl, Hu, Hs in E.
  cbv beta iota delta [bind ret] in E.
  destruct (processUnsubscription ph w1) as [[u|e] wu] eqn:Eu; [|discriminate E].
  destruct (sendUnsubReply ph conv wu) as [[x|e] wr] eqn:Er; [|discriminate E].
  inversion E; subst; exists u, wu, (Ret x); auto.
Qed.

Lemma dispatch_stop_inv ph msg conv w1 w2 flags :
  is_stop msg = true -> dispatch_keywords ph msg conv w1 = (Ret flags, w2) ->
  exists s ws o, processStopRequest ph w1 = (Ret s, ws)
                 /\ sendStopReply ph conv ws = (o, w2) /\ flags = (false, false, s).
Proof.
  intros Hs E; destruct (keywords_stop _ Hs) as [Hl Hu].
  unfold dispatch_keywords in E; rewrite Hl, Hu, Hs in E.
  cbv beta iota delta [bind ret] in E.
  destruct (processStopRequest ph w1) as [[x|e] ws] eqn:Ex; [|discriminate E].
  destruct (sendStopReply ph conv ws) as [[y|e] wr] eqn:Ey; [|discriminate E].
  inversion E; subst; exists x, ws, (Ret y); auto.
Qed.

Ltac cbn_run := cbn -[find_payment find_prop patch_fields update_fields].

Lemma processUnsubscription_active ph w p sid :
  store_ok w -> find_payment ph (payments w) = Some p ->
  truthy (find_prop "Tier" (pay_fields p)) = true ->
  is_str (find_prop "Tier" (pay_fields p)) "free" = false ->
  is_str (find_prop "Status" (pay_fields p)) "active" = true ->
  find_prop "Stripe Subscription ID" (pay_fields p) = JStr sid -> sid <> "" ->
  exists now w1 ts, processUnsubscription ph w = (Ret true, w1)
    /\ payments w1 = patch_payments (pay_id p) now (free_tier_update "completed") (payments w)
    /\ trace w1 = (trace w ++ ts)%list /\ cancel_ids ts = [sid].
Proof.
  intros Hok F Ht Hf Ha Hs Hsid; apply String.eqb_neq in Hsid.
  cbv beta delta [processUnsubscription findPaymentByPhone updatePaymentRecord cancel_subscription
                  invoke_ok invoke try_catch bind read ret throw update].
  cbn_run; rewrite Hok by reflexivity; cbn_run.
  rewrite F; cbn_run; rewrite Ht, Hf, Ha, Hs; cbn_run; rewrite Hsid; cbn_run.
  destruct (oracle w (length (trace w ++ [(FindPaymentByPhone ph, Ok)])) (CancelSubscription sid));
    cbn_run; rewrite Hok by reflexivity; cbn_run;
    (do 3 eexists; split; [reflexivity | split; [reflexivity | split;
       [rewrite <- !app_assoc; reflexivity | reflexivity]]]).
Qed.

Lemma processStopRequest_found ph w p :
  store_ok w -> find_payment ph (payments w) = Some p ->
  exists now w1, processStopRequest ph w = (Ret true, w1)
    /\ payments w1 = patch_payments (pay_id p) now (free_tier_update "cancelled") (payments w).
Proof.
  intros Hok F.
  cbv beta delta [processStopRequest findPaymentByPhone updatePaymentRecord cancel_subscription
                  invoke_ok invoke try_catch bind read ret throw update].
  cbn_run; rewrite Hok by reflexivity; cbn_run; rewrite F; cbn_run.
  destruct (find_prop "Stripe Subscription ID" (pay_fields p)) as [| | | |sid| |]; cbn_run;
    try destruct (negb (sid =? "") && is_str (find_prop "Status" (pay_fields p)) "active");
    cbn_run;
    try destruct (oracle w (length (trace w ++ [(FindPaymentByPhone ph, Ok)])) (CancelSubscription sid));
    cbn_run; rewrite Hok by reflexivity; cbn_run;
    (do 2 eexists; split; reflexivity).
Qed.

Lemma processUnsubscription_inactive ph w :
  no_active_paid ph (payments w) = true ->
  exists a, processUnsubscription ph w
            = (Ret false, set_trace w (trace w ++ [(FindPaymentByPhone ph, a)])).
Proof.
  unfold no_active_paid; intros H.
  cbv beta delta [processUnsubscription findPaymentByPhone invoke_ok invoke try_catch bind read
                  ret throw].
  cbn_run.
  destruct (oracle w (length (trace w)) (FindPaymentByPhone ph)); cbn_run;
    try (eexists; reflexivity).
  destruct (find_payment ph (payments w)); cbn_run; [rewrite H|]; eexists; reflexivity.
Qed.

Lemma reply_attempts_send key phone msg conv a1 a2 a3 :
  exists ca, In ca (reply_attempts key phone msg conv a1 a2 a3) /\ reply_attempt (fst ca) msg = true.
Proof.
  unfold reply_attempts; destruct key, (truthy conv), (js_to_string conv); cbn;
    (eexists; split; [left; reflexivity | cbn; apply String.eqb_refl]).
Qed.

Lemma sendUnsubReply_attempts ph conv w o w' :
  sendUnsubReply ph conv w = (o, w') ->
  exists ts, trace w' = (trace w ++ ts)%list
    /\ exists tpl, (tpl = msg_templates w \/ tpl = default_templates)
       /\ exists ca, In ca ts /\ reply_attempt (fst ca) (unsubReply tpl) = true.
Proof.
  cbv beta delta [sendUnsubReply getMessageTemplates try_catch bind invoke read ret].
  cbn -[sendSMSInConversation].
  destruct (oracle w (length (trace w)) GetMessageTemplates); cbn -[sendSMSInConversation];
    match goal with
    | |- context [sendSMSInConversation ?p ?m ?c ?w1] =>
        destruct (sendSMSInConversation_run p m c w1) as (a1 & a2 & a3 & Er); rewrite Er
    end; intros H; inversion H; subst; cbn; rewrite <- app_assoc;
    (eexists; split; [reflexivity|]);
    [exists (msg_templates w); split; [left; reflexivity|]
    | exists default_templates; split; [right; reflexivity|]
    | exists default_templates; split; [right; reflexivity|]];
    match goal with
    | |- context [reply_attempts ?k ?p ?m ?c ?x ?y ?z] =>
        destruct (reply_attempts_send k p m c x y z) as (ca & Hin & Hr)
    end;
    exists ca; (split; [first [right; exact Hin | apply in_or_app; right; exact Hin] | exact Hr]).
Qed.

(* ------------------------------------------------------------------ *)
(** ** Sample payment records *)

(** An active monthly subscriber. *)
Definition active_payment : payment_rec :=
  mk_payment_rec 7 [("Phone Number", JStr "+15551230000"); ("Tier", JStr "monthly");
    ("Amount", JNum "9"); ("Payment Type", JStr "subscription");
    ("Stripe Customer ID", JStr "cus_1"); ("Stripe Subscription ID", JStr "sub_1");
    ("Stripe Payment Intent ID", JStr "pi_1"); ("Stripe Session ID", JStr "cs_1");
    ("Status", JStr "active")].

(** A free-tier user. *)
Definition free_payment : payment_rec :=
  mk_payment_rec 8 [("Phone Number", JStr "+15551230000"); ("Tier", JStr "free");
    ("Status", JStr "completed")].

Definition subscriber_world : world := sample_world all_ok [active_payment].
Definition free_tier_world : world := sample_world all_ok [free_payment].

(** The Airtable payment update fails, everything else works. *)
Definition payment_update_fails : nat -> call -> answer :=
  fun _ c => match c with UpdatePaymentRecord _ _ => Throws | _ => Ok end.

Definition stop_delivery : js := sms_body "evt-4" "+15551230000" "STOP".
Definition stop_lower_delivery : js := sms_body "evt-5" "+15551230000" "stop".
Definition unsub_delivery : js := sms_body "evt-6" "+15551230000" "unsub".
Definition unsubscribe_delivery : js := sms_body "evt-7" "+15551230000" "UNSUBSCRIBE".

(** "STOP" followed by an ideographic space (U+3000), and "unsub"
    followed by a no-break space (U+00A0): both spaces are removed by
    [trim]. *)
Definition stop_wide_text : string := ("STOP" ++ utf8_encode 0x3000)%string.
Definition stop_wide_delivery : js := sms_body "evt-10" "+15551230000" stop_wide_text.
Definition unsub_nbsp_text : string := ("unsub" ++ utf8_encode 0xA0)%string.
Definition unsub_nbsp_delivery : js := sms_body "evt-11" "+15551230000" unsub_nbsp_text.

(** A sender written with a space and a no-break space, and a sender that
    is one ideographic space. *)
Definition spaced_sender : string := ("+1 555" ++ utf8_encode 0xA0 ++ "123 0000")%string.
Definition wide_space_sender : string := utf8_encode 0x3000.

Ltac run_calls :=
  repeat (cbn -[invoke_ok find_payment find_prop patch_fields update_fields];
    match goal with
    | |- context [invoke_ok ?c ?r ?w1] =>
        let E := fresh "E" in destruct (invoke_ok_run c r w1) as [[] E]; rewrite E
    | |- context [match find_payment ?p ?ps with _ => _ end] => destruct (find_payment p ps) eqn:?
    | |- context [match find_prop ?k ?fs with _ => _ end] => destruct (find_prop k fs) eqn:?
    | |- context [if ?b then _ else _] =>
        lazymatch b with true => fail | false => fail | _ => destruct b eqn:? end
    end).

Lemma persist_message_stores ph msg w ex w1 :
  ph <> "" -> persist_message ph msg w = (Ret ex, w1) ->
  exists r, find_phone ph (phones w1) = Some r /\ ph_message r = msg.
Proof.
  intros Hne; apply String.eqb_neq in Hne.
  cbv beta delta [persist_message findByPhone updatePhoneRecord createPhoneRecord bind read ret
                  update].
  rewrite Hne.
  destruct (invoke_ok_run (FindByPhone ph) true w) as [[] E0]; rewrite E0; cbn -[find_phone invoke_ok];
    [|intros H; discriminate H | intros H; discriminate H].
  destruct (find_phone ph (phones w)) as [r0|] eqn:F; cbn -[find_phone invoke_ok].
  - match goal with |- context [invoke_ok ?c ?r ?w2] =>
      destruct (invoke_ok_run c r w2) as [[] E1]; rewrite E1 end; cbn -[find_phone invoke_ok];
      intros H; inversion H; subst; cbn -[find_phone invoke_ok].
    apply find_phone_updated; exact F.
  - match goal with |- context [invoke_ok ?c ?r ?w2] =>
      destruct (invoke_ok_run c r w2) as [[] E1]; rewrite E1 end; cbn -[find_phone invoke_ok];
      intros H; inversion H; subst; cbn -[find_phone invoke_ok].
    exists (mk_phone_rec (next_id w) ph msg); split; [|reflexivity].
    apply find_phone_app_new; [exact F | reflexivity].
Qed.

(* ------------------------------------------------------------------ *)
(** ** Facts about the string primitives *)

(** Every character of [s] satisfies [p]. *)
Fixpoint all_chars (p : ascii -> bool) (s : string) : bool :=
  match s with
  | EmptyString => true
  | String c s' => p c && all_chars p s'
  end.

Lemma str_app_assoc (a b c : string) : (a ++ (b ++ c))%string = ((a ++ b) ++ c)%string.
Proof. induction a as [|x a IH]; simpl; [reflexivity|rewrite IH; reflexivity]. Qed.

Lemma str_app_nil_r (a : string) : (a ++ EmptyString)%string = a.
Proof. induction a as [|x a IH]; simpl; [reflexivity|rewrite IH; reflexivity]. Qed.

(** [s] is empty or starts a new character. *)
Definition head_ok (s : string) : bool :=
  match s with
  | EmptyString => true
  | String b _ => negb (is_cont b)
  end.

Lemma utf8_chars_head c s : exists t rest, utf8_chars (String c s) = String c t :: rest.
Proof.
  simpl; destruct (utf8_chars s) as [|[|b' t] rest]; eauto.
  destruct (is_cont b'); eauto.
Qed.

(** A byte followed by continuation bytes [t] and then by the start of a
    new character is one character. *)
Lemma utf8_chars_chunk b t s :
  all_chars is_cont t = true -> head_ok s = true ->
  utf8_chars (String b (t ++ s)) = String b t :: utf8_chars s.
Proof.
  revert b; induction t as [|x t IH]; intros b Ht Hs.
  - destruct s as [|c s]; [reflexivity|].
    simpl in Hs; cbn [append].
    change (utf8_chars (String b (String c s)))
      with (match utf8_chars (String c s) with
            | String b' t :: rest =>
                if is_cont b' then String b (String b' t) :: rest
                else String b EmptyString :: String b' t :: rest
            | rest => String b EmptyString :: rest
            end).
    destruct (utf8_chars_head c s) as [t' [rest E]]; rewrite E.
    destruct (is_cont c); [discriminate|reflexivity].
  - simpl in Ht; apply andb_prop in Ht as [Hx Ht].
    cbn [append].
    change (utf8_chars (String b (String x (t ++ s))))
      with (match utf8_chars (String x (t ++ s)) with
            | String b' t :: rest =>
                if is_cont b' then String b (String b' t) :: rest
                else String b EmptyString :: String b' t :: rest
            | rest => String b EmptyString :: rest
            end).
    rewrite (IH x Ht Hs), Hx; reflexivity.
Qed.

Lemma str_concat_chars s : str_concat (utf8_chars s) = s.
Proof.
  induction s as [|b s IH]; [reflexivity|].
  cbn [utf8_chars].
  destruct (utf8_chars s) as [|[|b' t] rest] eqn:E; cbn [str_concat append] in *.
  - rewrite IH; reflexivity.
  - rewrite IH; reflexivity.
  - destruct (is_cont b'); cbn [str_concat append]; rewrite IH; reflexivity.
Qed.

(** The pieces [utf8_chars] produces: non-empty, continuation bytes after
    the first byte, and a first byte that starts a character for every
    piece but the first. *)
Definition chunk_ok (ch : string) : bool :=
  match ch with
  | EmptyString => false
  | String _ t => all_chars is_cont t
  end.

Definition lead_ok (ch : string) : bool :=
  match ch with
  | EmptyString => false
  | String b _ => negb (is_cont b)
  end.

Definition chunks_ok (l : list string) : bool :=
  forallb chunk_ok l && forallb lead_ok (tl l).

Lemma utf8_chars_ok s : chunks_ok (utf8_chars s) = true.
Proof.
  unfold chunks_ok; induction s as [|b s IH]; [reflexivity|].
  cbn [utf8_chars].
  destruct (utf8_chars s) as [|[|b' t] rest] eqn:E; cbn [forallb tl chunk_ok all_chars] in *.
  - reflexivity.
  - discriminate.
  - apply andb_prop in IH as [IH1 IH2]; apply andb_prop in IH1 as [Ht Hrest].
    destruct (is_cont b') eqn:C; cbn [forallb tl chunk_ok all_chars lead_ok].
    + rewrite C, Ht, Hrest, IH2; reflexivity.
    + rewrite C, Ht, Hrest, IH2; reflexivity.
Qed.

Lemma str_concat_head_ok l : forallb lead_ok l = true -> head_ok (str_concat l) = true.
Proof.
  destruct l as [|[|b t] l]; cbn; [reflexivity|discriminate|].
  intros H; apply andb_prop in H as [H _]; exact H.
Qed.

Lemma chars_concat l : chunks_ok l = true -> utf8_chars (str_concat l) = l.
Proof.
  unfold chunks_ok; induction l as [|w l IH]; [reflexivity|].
  cbn [forallb tl str_concat]; intros H.
  apply andb_prop in H as [H1 H2]; apply andb_prop in H1 as [Hw Hl].
  destruct w as [|b t]; [discriminate|]; cbn [chunk_ok] in Hw; cbn [append].
  rewrite (utf8_chars_chunk b t _ Hw (str_concat_head_ok l H2)), IH; [reflexivity|].
  rewrite Hl; destruct l as [|w' l]; [reflexivity|].
  cbn [forallb tl] in H2 |- *; apply andb_prop in H2 as [_ H2]; exact H2.
Qed.

Lemma chunks_ok_filter f l : chunks_ok l = true -> chunks_ok (filter f l) = true.
Proof.
  unfold chunks_ok; intros H; apply andb_prop in H as [H1 H2].
  assert (Hall : forall l', (forall x, In x l' -> In x l) -> forallb chunk_ok l' = true).
  { intros l' Hin; apply forallb_forall; intros x Hx.
    rewrite forallb_forall in H1; apply H1, Hin, Hx. }
  rewrite Hall by (intros x Hx; apply filter_In in Hx; apply Hx); cbn [andb].
  destruct l as [|w l]; [reflexivity|]; cbn [filter tl] in *.
  assert (Hl : forall l', (forall x, In x l' -> In x l) -> forallb lead_ok l' = true).
  { intros l' Hin; apply forallb_forall; intros x Hx.
    rewrite forallb_forall in H2; apply H2, Hin, Hx. }
  destruct (f w); cbn [tl].
  - apply Hl; intros x Hx; apply filter_In in Hx; apply Hx.
  - destruct (filter f l) as [|y l'] eqn:E; [reflexivity|]; cbn [tl].
    apply Hl; intros x Hx; assert (In x (filter f l)) as Hx' by (rewrite E; right; exact Hx).
    apply filter_In in Hx'; apply Hx'.
Qed.

(** The first bytes of the white space characters. *)
Definition ws_lead (c : ascii) : bool :=
  existsb (fun cp => match utf8_encode cp with
                     | String b _ => Ascii.eqb b c
                     | EmptyString => false
                     end) js_ws_code_points.

Lemma is_ws_char_lead c t : ws_lead c = false -> is_ws_char (String c t) = false.
Proof.
  unfold ws_lead, is_ws_char; intros H.
  apply not_true_is_false; intros H'; apply existsb_exists in H' as [cp [Hin Heq]].
  apply String.eqb_eq in Heq.
  assert (existsb (fun cp => match utf8_encode cp with
                             | String b _ => Ascii.eqb b c
                             | EmptyString => false
                             end) js_ws_code_points = true) as H''.
  { apply existsb_exists; exists cp; split; [exact Hin|]; rewrite <- Heq; apply Ascii.eqb_refl. }
  rewrite H in H''; discriminate.
Qed.

Lemma ws_encode_chunk cp :
  In cp js_ws_code_points ->
  exists b t, utf8_encode cp = String b t /\ all_chars is_cont t = true.
Proof.
  intros H; repeat (destruct H as [<-|H]; [eexists; eexists; split; [reflexivity|reflexivity]|]).
  destruct H.
Qed.

Lemma ws_encode_is_ws cp : In cp js_ws_code_points -> is_ws_char (utf8_encode cp) = true.
Proof.
  intros H; unfold is_ws_char; apply existsb_exists; exists cp; split; [exact H|].
  apply String.eqb_refl.
Qed.

Lemma drop_ws_app_last l x :
  is_ws_char x = false -> exists l' : list string, drop_ws (l ++ [x])%list = (l' ++ [x])%list.
Proof.
  intros Hx; induction l as [|y l IH].
  - exists []; cbn [app drop_ws]; rewrite Hx; reflexivity.
  - cbn [app drop_ws]; destruct (is_ws_char y); [exact IH|].
    exists (y :: l); reflexivity.
Qed.

(** [trim] keeps a first character that is not white space. *)
Lemma trim_keeps_head c s :
  ws_lead c = false -> exists t, trim (String c s) = String c t.
Proof.
  intros Hc; unfold trim.
  destruct (utf8_chars_head c s) as [t [rest E]]; rewrite E.
  cbn [drop_ws]; rewrite (is_ws_char_lead c t Hc); cbn [rev].
  destruct (drop_ws_app_last (rev rest) (String c t) (is_ws_char_lead c t Hc)) as [l' ->].
  rewrite rev_app_distr; cbn [rev app str_concat append].
  eexists; reflexivity.
Qed.

(** A white space character in front of the start of a character is
    removed by [trim]. *)
Lemma trim_skip_ws cp s :
  In cp js_ws_code_points -> head_ok s = true -> trim (utf8_encode cp ++ s) = trim s.
Proof.
  intros Hcp Hs; unfold trim.
  destruct (ws_encode_chunk cp Hcp) as [b [t [E Ht]]].
  pose proof (ws_encode_is_ws cp Hcp) as W; rewrite E in W |- *.
  cbn [append]; rewrite (utf8_chars_chunk b t s Ht Hs); cbn [drop_ws]; rewrite W.
  reflexivity.
Qed.

Lemma drop_ws_no_ws l : forallb (fun ch => negb (is_ws_char ch)) l = true -> drop_ws l = l.
Proof.
  destruct l as [|x l]; [reflexivity|]; cbn [forallb drop_ws]; intros H.
  apply andb_prop in H as [H _]; destruct (is_ws_char x); [discriminate|reflexivity].
Qed.

Lemma trim_no_ws s :
  forallb (fun ch => negb (is_ws_char ch)) (utf8_chars s) = true -> trim s = s.
Proof.
  intros H; unfold trim; rewrite (drop_ws_no_ws _ H).
  rewrite drop_ws_no_ws.
  - rewrite rev_involutive; apply str_concat_chars.
  - apply forallb_forall; intros x Hx; apply in_rev in Hx.
    rewrite forallb_forall in H; apply H, Hx.
Qed.

Lemma remove_ws_chars s :
  utf8_chars (remove_ws s) = filter (fun ch => negb (is_ws_char ch)) (utf8_chars s).
Proof. unfold remove_ws; apply chars_concat, chunks_ok_filter, utf8_chars_ok. Qed.

Lemma remove_ws_no_ws s :
  forallb (fun ch => negb (is_ws_char ch)) (utf8_chars (remove_ws s)) = true.
Proof.
  rewrite remove_ws_chars; apply forallb_forall; intros x Hx.
  apply filter_In in Hx; apply Hx.
Qed.

Lemma trim_empty : trim EmptyString = EmptyString.
Proof. reflexivity. Qed.

Lemma substring_app_left u v : substring 0 (String.length u) (u ++ v) = u.
Proof. induction u as [|c u IH]; simpl; [destruct v; reflexivity | rewrite IH; reflexivity]. Qed.

Lemma substring_app_right u v n : substring (String.length u) n (u ++ v) = substring 0 n v.
Proof. induction u as [|c u IH]; simpl; [reflexivity | exact IH]. Qed.

Lemma length_app_str u v : String.length (u ++ v) = String.length u + String.length v.
Proof. induction u as [|c u IH]; simpl; [reflexivity | rewrite IH; reflexivity]. Qed.

(* ------------------------------------------------------------------ *)
(** ** The Bird library itself (sendSMS, findOrCreateConversation,
    createConversation, sendSMSDirect, sendSMSSequence of src/app/lib/bird.ts)

    The handler's [sendSMS] and [sendSMSDirect] above stand for these
    functions seen from the outside; here their own code is embedded, with
    the HTTP requests they send *)

(** The requests the library sends to [https://api.bird.com]. *)
Inductive bird_request : Type :=
| ListConversations                                     (* GET .../conversations?limit=100 *)
| CreateConversation (phone : string)                   (* POST .../conversations *)
| PostConversationMessage (conversation_id text : string)
                                                        (* POST .../conversations/{id}/messages *)
| PostChannelMessage (phone text : string).             (* POST .../channels/{channel}/messages *)

(** An HTTP answer: its status and its body parsed as JSON ([None] when
    [response.json()] rejects). *)
Record http_response := mk_http_response {
  resp_status : nat;
  resp_json : option js
}.

(** [response.ok] *)
Definition response_ok (r : http_response) : bool :=
  Nat.leb 200 (resp_status r) && Nat.ltb (resp_status r) 300.

(** The configuration the library reads and the network it talks to:
    [bird_net n r] is the answer to the [n]-th request, [r] ([None]: the
    [fetch] rejects).  [bird_log] lists the requests sent so far. *)
Record bird_env := mk_bird_env {
  bird_key : bool;       (* BIRD_API_KEY || MESSAGEBIRD_API_KEY set *)
  bird_channel : bool;   (* BIRD_CHANNEL_ID set *)
  bird_log : list bird_request;
  bird_net : nat -> bird_request -> option http_response
}.

Definition set_bird_log (e : bird_env) (l : list bird_request) : bird_env :=
  mk_bird_env (bird_key e) (bird_channel e) l (bird_net e).

Definition BM (A : Type) : Type := bird_env -> outcome A * bird_env.

Definition bret {A} (a : A) : BM A := fun e => (Ret a, e).
Definition bthrow {A} (msg : string) : BM A := fun e => (Exn msg, e).
Definition bbind {A B} (c : BM A) (f : A -> BM B) : BM B :=
  fun e => match c e with
           | (Ret a, e') => f a e'
           | (Exn m, e') => (Exn m, e')
           end.
Definition btry {A} (c : BM A) (h : string -> BM A) : BM A :=
  fun e => match c e with
           | (Ret a, e') => (Ret a, e')
           | (Exn m, e') => h m e'
           end.
Definition bread {A} (f : bird_env -> A) : BM A := fun e => (Ret (f e), e).

Notation "'let*' x ':=' c 'in' k" := (bbind c (fun x => k))
  (at level 200, x name, c at level 100, k at level 200).

(** [await fetch(url, ...)] *)
Definition fetch (r : bird_request) : BM http_response :=
  fun e =>
    let e' := set_bird_log e (bird_log e ++ [r]) in
    match bird_net e (length (bird_log e)) r with
    | Some resp => (Ret resp, e')
    | None => (Exn "fetch failed", e')
    end.

(** [await response.json()] *)
Definition response_json (r : http_response) : BM js :=
  match resp_json r with
  | Some v => bret v
  | None => bthrow "SyntaxError: Unexpected token in JSON"
  end.

(** [v.k], which throws on [null]/[undefined]. *)
Definition read_prop (v : js) (k : string) : BM js :=
  if nullish v then bthrow "TypeError: Cannot read properties of null"
  else bret (get v k).

(** The E.164 normalisation of [sendSMS] and [sendSMSDirect]:
    [phoneNumber.startsWith('+') ? phoneNumber.trim() : `+${phoneNumber.trim()}`]. *)
Definition normalize_e164 (phoneNumber : string) : string :=
  if starts_with "+" phoneNumber then trim phoneNumber
  else "+" ++ trim phoneNumber.

(** [createConversation(phoneNumber)]; its [catch] rethrows.  The log
    line [`${data.id}`] converts the id to a string. *)
Definition createConversation (phoneNumber : string) : BM js :=
  let* response := fetch (CreateConversation phoneNumber) in
  if negb (response_ok response)
  then bthrow "Failed to create conversation"
  else
    let* data := response_json response in
    let* id := read_prop data "id" in
    match js_to_string id with
    | None => bthrow "TypeError: Cannot convert object to primitive value"
    | Some _ => bret id
    end.

(** [for (const x of v)]: the items an iteration visits, [None] when [v]
    is not iterable (a [TypeError]).  A string is visited character by
    character (code point by code point); each item is then the string of
    one character. *)
Definition iterate (v : js) : option (list js) :=
  match v with
  | JArr items => Some items
  | JStr s => Some (map JStr (utf8_chars s))
  | _ => None
  end.

(** [s.includes(q)] on strings. *)
Fixpoint str_includes (q s : string) : bool :=
  String.prefix q s ||
  match s with
  | EmptyString => false
  | String _ s' => str_includes q s'
  end.

(** The test of the inner loop of [findOrCreateConversation]:
    [contactPhone === phoneNumber || contactPhone?.includes(phoneNumber.replace('+', ''))]
    with [contactPhone = participant.contact?.identifierValue ||
    participant.contact?.platformAddress].  [includes] is the string method
    on a string, the array method (SameValueZero) on an array; on any other
    value it is not a function. *)
Definition participant_matches (phoneNumber : string) (participant : js) : BM bool :=
  if nullish participant then bthrow "TypeError: Cannot read properties of null"
  else
    let contact := get participant "contact" in
    let contactPhone := get_opt contact "identifierValue" ||| get_opt contact "platformAddress" in
    if is_str contactPhone phoneNumber then bret true
    else
      let q := replace_first "+" "" phoneNumber in
      match contactPhone with
      | JUndef | JNull => bret false
      | JStr s => bret (str_includes q s)
      | JArr items => bret (existsb (same_value_zero (JStr q)) items)
      | _ => bthrow "TypeError: contactPhone.includes is not a function"
      end.

Fixpoint any_participant (phoneNumber : string) (ps : list js) : BM bool :=
  match ps with
  | [] => bret false
  | p :: ps' =>
      let* m := participant_matches phoneNumber p in
      if m then bret true else any_participant phoneNumber ps'
  end.

(** The outer loop: the [id] of the first conversation with a matching
    participant; the log line [`${conv.id}`] converts it to a string
    before it is returned. *)
Fixpoint find_conversation (phoneNumber : string) (convs : list js) : BM (option js) :=
  match convs with
  | [] => bret None
  | conv :: convs' =>
      let* p1 := read_prop conv "participants" in
      let participants := p1 ||| get conv "featuredParticipants" ||| JArr [] in
      match iterate participants with
      | None => bthrow "TypeError: participants is not iterable"
      | Some ps =>
          let* m := any_participant phoneNumber ps in
          if m then
            match js_to_string (get conv "id") with
            | None => bthrow "TypeError: Cannot convert object to primitive value"
            | Some _ => bret (Some (get conv "id"))
            end
          else find_conversation phoneNumber convs'
      end
  end.

(** [findOrCreateConversation(phoneNumber)]: the [return await
    createConversation(...)] of the [try] block is inside the [try], so
    when it throws the [catch] calls [createConversation] again. *)
Definition findOrCreateConversation (phoneNumber : string) : BM js :=
  btry
    (let* response := fetch ListConversations in
     let* found :=
       (if response_ok response then
          let* data := response_json response in
          let* results := read_prop data "results" in
          let conversations := results ||| get data "items" ||| get data "data" ||| JArr [] in
          match iterate conversations with
          | None => bthrow "TypeError: conversations is not iterable"
          | Some convs => find_conversation phoneNumber convs
          end
        else bret None) in
     match found with
     | Some id => bret id
     | None => createConversation phoneNumber
     end)
    (fun _ => createConversation phoneNumber).

(** [sendSMS(phoneNumber, message)] (its [catch] rethrows).
    [BIRD_WORKSPACE_ID] has a default value and is never missing.  On a
    404 answer the retry is posted to [sendMessageUrl], the URL built from
    the first conversation id. *)
Definition sendSMS_http (phoneNumber message : string) : BM js :=
  let* key := bread bird_key in
  if negb key then bthrow "BIRD_API_KEY not found in environment variables" else
  let* channel := bread bird_channel in
  if negb channel then bthrow "BIRD_CHANNEL_ID not found in environment variables" else
  if String.eqb phoneNumber "" || String.eqb (trim phoneNumber) ""
  then bthrow "Phone number is required" else
  let normalizedPhone := normalize_e164 phoneNumber in
  if String.eqb message "" || String.eqb (trim message) ""
  then bthrow "Message text is required" else
  let* conversationId := findOrCreateConversation normalizedPhone in
  (* [sendMessageUrl] is built with [`${conversationId}`] *)
  match js_to_string conversationId with
  | None => bthrow "TypeError: Cannot convert object to primitive value"
  | Some sendMessageConversation =>
  let* response := fetch (PostConversationMessage sendMessageConversation (trim message)) in
  if response_ok response then response_json response
  else if Nat.eqb (resp_status response) 404 then
    let* _conversationId := createConversation normalizedPhone in
    let* retryResponse :=
      fetch (PostConversationMessage sendMessageConversation (trim message)) in
    if response_ok retryResponse then response_json retryResponse
    else bthrow "Failed to send SMS"
  else bthrow "Failed to send SMS"
  end.

(** [sendSMSDirect(phoneNumber, message)] (its [catch] rethrows). *)
Definition sendSMSDirect_http (phoneNumber message : string) : BM js :=
  let* key := bread bird_key in
  let* channel := bread bird_channel in
  if negb (key && channel) then bthrow "Bird API configuration missing" else
  let normalizedPhone := normalize_e164 phoneNumber in
  let* response := fetch (PostChannelMessage normalizedPhone (trim message)) in
  if response_ok response then response_json response
  else bthrow "Failed to send SMS".

(** The entries of the [results] array of [sendSMSSequence]:
    [{ success: true, messageIndex, result }] and
    [{ success: false, messageIndex, error: error.message }]. *)
Inductive send_result : Type :=
| SendOk (messageIndex : nat) (result : js)
| SendFailed (messageIndex : nat) (error : string).

Definition result_index (r : send_result) : nat :=
  match r with SendOk i _ | SendFailed i _ => i end.

(** The loop of [sendSMSSequence] from index [i] on (the delay between
    messages is not modelled). *)
Fixpoint sendSMSSequence_from (phoneNumber : string) (i : nat) (messages : list string)
  : BM (list send_result) :=
  match messages with
  | [] => bret []
  | m :: ms =>
      let* r :=
        btry
          (let* result := btry (sendSMSDirect_http phoneNumber m)
                               (fun _ => sendSMS_http phoneNumber m) in
           bret (SendOk (S i) result))
          (fun err => bret (SendFailed (S i) err)) in
      let* rs := sendSMSSequence_from phoneNumber (S i) ms in
      bret (r :: rs)
  end.

(** [sendSMSSequence(phoneNumber, messages, delayMs)] *)
Definition sendSMSSequence (phoneNumber : string) (messages : list string)
  : BM (list send_result) :=
  sendSMSSequence_from phoneNumber 0 messages.

(* ------------------------------------------------------------------ *)
(** ** Runs of the Bird library *)

(** What a library call may change: only the request log, by appending. *)
Definition log_ext (e e' : bird_env) : Prop :=
  bird_key e' = bird_key e /\ bird_channel e' = bird_channel e /\ bird_net e' = bird_net e
  /\ exists l, bird_log e' = (bird_log e ++ l)%list.

Definition bframe {A} (c : BM A) : Prop := forall e o e', c e = (o, e') -> log_ext e e'.

(** A computation that sends nothing. *)
Definition bpure {A} (c : BM A) : Prop := forall e o e', c e = (o, e') -> e' = e.

Lemma log_ext_refl e : log_ext e e.
Proof. repeat split; exists []; rewrite app_nil_r; reflexivity. Qed.

Lemma log_ext_trans e1 e2 e3 : log_ext e1 e2 -> log_ext e2 e3 -> log_ext e1 e3.
Proof.
  intros (K1 & C1 & N1 & l1 & L1) (K2 & C2 & N2 & l2 & L2); repeat split; try congruence.
  exists (l1 ++ l2)%list; rewrite L2, L1, app_assoc; reflexivity.
Qed.

Lemma bpure_bframe {A} (c : BM A) : bpure c -> bframe c.
Proof. intros H e o e' E; rewrite (H e o e' E); apply log_ext_refl. Qed.

Lemma bframe_ret {A} (a : A) : bframe (bret a).
Proof. intros e o e' E; inversion E; apply log_ext_refl. Qed.
Lemma bframe_throw {A} m : bframe (@bthrow A m).
Proof. intros e o e' E; inversion E; apply log_ext_refl. Qed.
Lemma bframe_read {A} (f : bird_env -> A) : bframe (bread f).
Proof. intros e o e' E; inversion E; apply log_ext_refl. Qed.
Lemma bframe_fetch r : bframe (fetch r).
Proof.
  intros e o e' E; unfold fetch in E.
  destruct (bird_net e _ r); inversion E; subst; repeat split; eexists; reflexivity.
Qed.
Lemma bframe_bind {A B} (c : BM A) (f : A -> BM B) :
  bframe c -> (forall a, bframe (f a)) -> bframe (bbind c f).
Proof.
  intros Hc Hf e o e' E; unfold bbind in E.
  destruct (c e) as [[a|m] e1] eqn:E1.
  - eapply log_ext_trans; [eapply Hc; exact E1 | eapply Hf; exact E].
  - inversion E; subst; eapply Hc; exact E1.
Qed.
Lemma bframe_try {A} (c : BM A) (h : string -> BM A) :
  bframe c -> (forall m, bframe (h m)) -> bframe (btry c h).
Proof.
  intros Hc Hh e o e' E; unfold btry in E.
  destruct (c e) as [[a|m] e1] eqn:E1.
  - inversion E; subst; eapply Hc; exact E1.
  - eapply log_ext_trans; [eapply Hc; exact E1 | eapply Hh; exact E].
Qed.

Lemma bpure_ret {A} (a : A) : bpure (bret a).
Proof. intros e o e' E; inversion E; reflexivity. Qed.
Lemma bpure_throw {A} m : bpure (@bthrow A m).
Proof. intros e o e' E; inversion E; reflexivity. Qed.
Lemma bpure_bind {A B} (c : BM A) (f : A -> BM B) :
  bpure c -> (forall a, bpure (f a)) -> bpure (bbind c f).
Proof.
  intros Hc Hf e o e' E; unfold bbind in E.
  destruct (c e) as [[a|m] e1] eqn:E1.
  - rewrite (Hc _ _ _ E1) in E; eapply Hf; exact E.
  - inversion E; subst; eapply Hc; exact E1.
Qed.

Ltac bstep :=
  match goal with
  | |- bframe (bbind _ _) => apply bframe_bind; [ | intro ]
  | |- bframe (btry _ _) => apply bframe_try; [ | intro ]
  | |- bframe (bret _) => apply bframe_ret
  | |- bframe (bthrow _) => apply bframe_throw
  | |- bframe (bread _) => apply bframe_read
  | |- bframe (fetch _) => apply bframe_fetch
  | |- bpure (bbind _ _) => apply bpure_bind; [ | intro ]
  | |- bpure (bret _) => apply bpure_ret
  | |- bpure (bthrow _) => apply bpure_throw
  | |- _ (if ?b then _ else _) => destruct b
  | |- _ (match ?x with _ => _ end) => destruct x
  end.

Lemma response_json_pure r : bpure (response_json r).
Proof. unfold response_json; repeat bstep. Qed.
Lemma read_prop_pure v k : bpure (read_prop v k).
Proof. unfold read_prop; repeat bstep. Qed.
Lemma participant_matches_pure ph p : bpure (participant_matches ph p).
Proof. unfold participant_matches; repeat bstep. Qed.
Lemma any_participant_pure ph ps : bpure (any_participant ph ps).
Proof.
  induction ps as [|p ps IH]; simpl; repeat bstep; try apply participant_matches_pure; exact IH.
Qed.
Lemma find_conversation_pure ph cs : bpure (find_conversation ph cs).
Proof.
  induction cs as [|c cs IH]; simpl; repeat bstep;
    try apply read_prop_pure; try apply any_participant_pure; exact IH.
Qed.

Lemma createConversation_frame p : bframe (createConversation p).
Proof.
  unfold createConversation; repeat bstep;
    try (apply bpure_bframe; first [apply response_json_pure | apply read_prop_pure]).
Qed.

Lemma findOrCreateConversation_frame p : bframe (findOrCreateConversation p).
Proof.
  unfold findOrCreateConversation; repeat bstep;
    try apply createConversation_frame;
    try (apply bpure_bframe; first [apply response_json_pure | apply read_prop_pure
                                   | apply find_conversation_pure]).
Qed.

(** [createConversation] sends exactly one request. *)
Lemma createConversation_log p e o e' :
  createConversation p e = (o, e') ->
  bird_log e' = (bird_log e ++ [CreateConversation p])%list /\ bird_net e' = bird_net e.
Proof.
  unfold createConversation, bbind, fetch; intros E.
  destruct (bird_net e (length (bird_log e)) (CreateConversation p)) as [r|];
    [|inversion E; subst; split; reflexivity].
  destruct (response_ok r); simpl in E; [|inversion E; subst; split; reflexivity].
  unfold response_json, read_prop, bret, bthrow in E.
  destruct (resp_json r) as [v|]; [|inversion E; subst; split; reflexivity].
  destruct (nullish v); [inversion E; subst; split; reflexivity|].
  unfold bbind, bret in E.
  destruct (js_to_string (get v "id")); inversion E; subst; split; reflexivity.
Qed.

Lemma findOrCreateConversation_log p e o e' :
  findOrCreateConversation p e = (o, e') ->
  exists k, k <= 2
    /\ bird_log e' = (bird_log e ++ ListConversations :: repeat (CreateConversation p) k)%list
    /\ (forall m, o = Exn m -> 1 <= k).
Proof.
  intros E; unfold findOrCreateConversation, btry in E.
  unfold bbind at 1, fetch in E.
  set (e1 := set_bird_log e (bird_log e ++ [ListConversations])) in E.
  assert (L1 : bird_log e1 = (bird_log e ++ [ListConversations])%list) by reflexivity.
  assert (One : createConversation p e1 = (o, e') ->
                bird_log e' = (bird_log e ++ ListConversations
                                :: repeat (CreateConversation p) 1)%list).
  { intros C2; apply createConversation_log in C2 as [C2 _]; rewrite C2, L1, <- app_assoc;
      reflexivity. }
  destruct (bird_net e (length (bird_log e)) ListConversations) as [r|] eqn:N.
  2: { exists 1; split; [lia|]; split; [apply One; exact E | intros; lia]. }
  unfold bbind at 1 in E.
  match type of E with
  | context [match ?c e1 with _ => _ end] =>
      assert (Pc : bpure c)
        by (repeat bstep;
            first [apply response_json_pure | apply read_prop_pure | apply find_conversation_pure]);
      destruct (c e1) as [[f|m] e2] eqn:F; pose proof (Pc _ _ _ F) as P; subst e2
  end.
  2: { exists 1; split; [lia|]; split; [apply One; exact E | intros; lia]. }
  destruct f as [id|].
  { unfold bret in E; inversion E; subst; exists 0; split; [lia|]; split;
      [rewrite L1; reflexivity | intros m Hm; discriminate Hm]. }
  destruct (createConversation p e1) as [[v|m] e2] eqn:C.
  - inversion E; subst; exists 1; split; [lia|]; split; [|intros m Hm; discriminate Hm].
    apply createConversation_log in C as [C _]; rewrite C, L1, <- app_assoc; reflexivity.
  - exists 2; split; [lia|]; split; [|intros; lia].
    apply createConversation_log in C as [C _]; apply createConversation_log in E as [E _].
    rewrite E, C, L1, <- !app_assoc; reflexivity.
Qed.

Lemma prefix_plus_cons c s : String.prefix "+" (String c s) = true <-> c = "+"%char.
Proof.
  rewrite String.prefix_correct; simpl; split;
    [intro H; injection H; auto | intros ->; destruct s; reflexivity].
Qed.

Lemma normalize_e164_starts_plus p : starts_with "+" (normalize_e164 p) = true.
Proof.
  unfold normalize_e164, starts_with.
  destruct p as [|c p']; [reflexivity|].
  destruct (String.prefix "+" (String c p')) eqn:E.
  - apply prefix_plus_cons in E; subst c.
    destruct (trim_keeps_head "+" p' eq_refl) as [t ->]; apply prefix_plus_cons; reflexivity.
  - apply prefix_plus_cons; reflexivity.
Qed.

Ltac exn_ret :=
  match goal with H : _ = (Ret _, _) |- _ => cbv beta iota delta [bthrow] in H; inversion H end.

Lemma sendSMSSequence_from_results p i ms e :
  exists rs, fst (sendSMSSequence_from p i ms e) = Ret rs
             /\ map result_index rs = seq (S i) (length ms).
Proof.
  revert i e; induction ms as [|m ms IH]; intros i e; [exists []; split; reflexivity|].
  cbn [sendSMSSequence_from]; unfold bbind at 1, btry at 1.
  set (inner := bbind (btry (sendSMSDirect_http p m) (fun _ => sendSMS_http p m))
                      (fun result => bret (SendOk (S i) result))).
  assert (Hin : forall e0 o e1, inner e0 = (o, e1) ->
                  forall r, o = Ret r -> result_index r = S i).
  { intros e0 o e1 H r Hr; subst o; unfold inner, bbind in H.
    destruct (btry _ _ e0) as [[x|x] e2]; inversion H; reflexivity. }
  destruct (inner e) as [[r|err] e1] eqn:Ei.
  - destruct (IH (S i) e1) as (rs & Hrs & Ls).
    unfold bbind; destruct (sendSMSSequence_from p (S i) ms e1) as [[rs'|x] e2];
      simpl in Hrs; [|discriminate].
    inversion Hrs; subst rs'; exists (r :: rs); split; [reflexivity|].
    simpl; rewrite (Hin _ _ _ Ei r eq_refl), Ls; reflexivity.
  - unfold bret at 1.
    destruct (IH (S i) e1) as (rs & Hrs & Ls).
    unfold bbind; destruct (sendSMSSequence_from p (S i) ms e1) as [[rs'|x] e2];
      simpl in Hrs; [|discriminate].
    inversion Hrs; subst rs'; exists (SendFailed (S i) err :: rs); split; [reflexivity|].
    simpl; rewrite Ls; reflexivity.
Qed.

(* ------------------------------------------------------------------ *)
(** ** Decoding the [encodeURIComponent] text of the welcome link *)

(** The value of a hexadecimal digit written by [hex_digit]. *)
Definition hex_value (c : ascii) : nat :=
  let n := nat_of_ascii c in if Nat.leb n 57 then n - 48 else n - 55.

(** [decodeURIComponent] on the texts [encode_uri_component] writes:
    [%XX] is the byte [XX], any other character stands for itself. *)
Fixpoint uri_decode (s : string) : string :=
  match s with
  | EmptyString => EmptyString
  | String c s' =>
      if Ascii.eqb c "%" then
        match s' with
        | String h1 (String h2 s'') =>
            String (ascii_of_nat (16 * hex_value h1 + hex_value h2)) (uri_decode s'')
        | _ => String c (uri_decode s')
        end
      else String c (uri_decode s')
  end.

Lemma hex_digit_value n : n < 16 -> hex_value (hex_digit n) = n.
Proof.
  intros H; unfold hex_value, hex_digit, chr.
  destruct (Nat.ltb n 10) eqn:E.
  - apply Nat.ltb_lt in E; rewrite Ascii.nat_ascii_embedding by lia.
    rewrite (proj2 (Nat.leb_le _ _)) by lia; lia.
  - apply Nat.ltb_ge in E; rewrite Ascii.nat_ascii_embedding by lia.
    rewrite (proj2 (Nat.leb_gt _ _)) by lia; lia.
Qed.

Lemma unreserved_not_percent c : uri_unreserved c = true -> c <> "%"%char.
Proof. intros H ->; discriminate H. Qed.

Lemma encode_uri_component_cons c s :
  encode_uri_component (String c s)
  = if uri_unreserved c then String c (encode_uri_component s)
    else String "%" (String (hex_digit (nat_of_ascii c / 16))
           (String (hex_digit (nat_of_ascii c mod 16)) (encode_uri_component s))).
Proof. reflexivity. Qed.

Lemma uri_decode_encode s : uri_decode (encode_uri_component s) = s.
Proof.
  induction s as [|c s IH]; [reflexivity|]; rewrite encode_uri_component_cons.
  destruct (uri_unreserved c) eqn:U.
  - pose proof (unreserved_not_percent c U) as Np.
    assert (G : forall t, uri_decode (String c t) = String c (uri_decode t)).
    { intros t; simpl; destruct (Ascii.eqb c "%") eqn:P; [|reflexivity].
      apply Ascii.eqb_eq in P; contradiction. }
    rewrite G, IH; reflexivity.
  - cbn [uri_decode]; rewrite IH.
    pose proof (Ascii.nat_ascii_bounded c) as B.
    assert (D1 : nat_of_ascii c / 16 < 16) by (apply Nat.Div0.div_lt_upper_bound; lia).
    assert (D2 : nat_of_ascii c mod 16 < 16) by (apply Nat.mod_upper_bound; lia).
    rewrite (hex_digit_value _ D1), (hex_digit_value _ D2).
    rewrite <- (Nat.div_mod (nat_of_ascii c) 16) by lia.
    rewrite Ascii.ascii_nat_embedding; reflexivity.
Qed.

Lemma hex_digit_unreserved n : n < 16 -> uri_unreserved (hex_digit n) = true.
Proof.
  intros H; unfold hex_digit, chr, uri_unreserved.
  destruct (Nat.ltb n 10) eqn:E.
  - apply Nat.ltb_lt in E; rewrite Ascii.nat_ascii_embedding by lia.
    rewrite (proj2 (Nat.leb_le 48 (48 + n))), (proj2 (Nat.leb_le (48 + n) 57)) by lia; reflexivity.
  - apply Nat.ltb_ge in E; rewrite Ascii.nat_ascii_embedding by lia.
    rewrite (proj2 (Nat.leb_le 65 (55 + n))), (proj2 (Nat.leb_le (55 + n) 90)) by lia.
    rewrite orb_true_r; reflexivity.
Qed.

(* ------------------------------------------------------------------ *)
(** ** Invariants of the Phone Numbers table *)

(** The Phone Numbers table is consistent: record ids are distinct and
    below the next id the store hands out, and every non-empty phone
    number has at most one record. *)
Definition table_ok (ps : list phone_rec) (n : nat) : Prop :=
  NoDup (map ph_id ps) /\ Forall (fun i => i < n) (map ph_id ps)
  /\ forall p, p <> "" -> count_occ string_dec (map ph_phone ps) p <= 1.

Definition phone_table_ok (w : world) : Prop := table_ok (phones w) (next_id w).

Lemma NoDup_map_inj {A B} (f : A -> B) l x y :
  NoDup (map f l) -> In x l -> In y l -> f x = f y -> x = y.
Proof.
  induction l as [|a l IH]; simpl; [tauto|].
  intros ND Hx Hy Hf; inversion ND as [|? ? Na ND']; subst.
  destruct Hx as [<-|Hx], Hy as [<-|Hy]; auto.
  - exfalso; apply Na; rewrite Hf; apply in_map; exact Hy.
  - exfalso; apply Na; rewrite <- Hf; apply in_map; exact Hx.
Qed.

Lemma find_phone_some ph ps r : find_phone ph ps = Some r -> In r ps /\ ph_phone r = ph.
Proof.
  induction ps as [|a ps IH]; simpl; [discriminate|].
  destruct (String.eqb (ph_phone a) ph) eqn:E.
  - intros H; inversion H; subst; split; [left; reflexivity | apply String.eqb_eq; exact E].
  - intros H; destruct (IH H); split; [right|]; assumption.
Qed.

Lemma find_phone_none_count ph ps :
  find_phone ph ps = None -> count_occ string_dec (map ph_phone ps) ph = 0.
Proof.
  induction ps as [|a ps IH]; simpl; [reflexivity|].
  destruct (String.eqb (ph_phone a) ph) eqn:E; [discriminate|].
  intros H; destruct (string_dec (ph_phone a) ph) as [e|]; [|apply IH; exact H].
  apply String.eqb_eq in e; congruence.
Qed.

Lemma NoDup_snoc (l : list nat) n : NoDup l -> ~ In n l -> NoDup (l ++ [n]).
Proof.
  induction l as [|a l IH]; simpl; intros ND Hn; [constructor; [tauto | constructor]|].
  inversion ND; subst; constructor.
  - rewrite in_app_iff; simpl; intros [H|[H|[]]]; [tauto | apply Hn; left; symmetry; exact H].
  - apply IH; [assumption | tauto].
Qed.

Lemma table_ok_app ps n ph msg :
  table_ok ps n -> (ph = "" \/ find_phone ph ps = None) ->
  table_ok (ps ++ [mk_phone_rec n ph msg]) (S n).
Proof.
  intros (ND & Lt & U) Hph; unfold table_ok; rewrite !map_app; simpl; split; [|split].
  - apply NoDup_snoc; [exact ND|]; intros Hin.
    rewrite Forall_forall in Lt; specialize (Lt n Hin); lia.
  - apply Forall_app; split; [|repeat constructor].
    eapply Forall_impl; [|exact Lt]; simpl; intros; lia.
  - intros p Hp; rewrite count_occ_app; simpl.
    destruct (string_dec ph p) as [<-|Ne]; [|specialize (U p Hp); lia].
    destruct Hph as [->|Hn]; [contradiction|].
    rewrite find_phone_none_count by exact Hn; lia.
Qed.

Lemma table_ok_update ps n r0 ph msg :
  table_ok ps n -> find_phone ph ps = Some r0 ->
  table_ok (map (fun r => if Nat.eqb (ph_id r) (ph_id r0)
                          then mk_phone_rec (ph_id r0) ph msg else r) ps) n.
Proof.
  intros (ND & Lt & U) F; destruct (find_phone_some _ _ _ F) as [In0 P0].
  assert (Ids : map ph_id (map (fun r => if Nat.eqb (ph_id r) (ph_id r0)
                                         then mk_phone_rec (ph_id r0) ph msg else r) ps)
                = map ph_id ps).
  { rewrite map_map; apply map_ext; intros r.
    destruct (Nat.eqb (ph_id r) (ph_id r0)) eqn:E; [apply Nat.eqb_eq in E; simpl; congruence
                                                   | reflexivity]. }
  assert (Phs : map ph_phone (map (fun r => if Nat.eqb (ph_id r) (ph_id r0)
                                            then mk_phone_rec (ph_id r0) ph msg else r) ps)
                = map ph_phone ps).
  { rewrite map_map; apply map_ext_in; intros r Hr.
    destruct (Nat.eqb (ph_id r) (ph_id r0)) eqn:E; [|reflexivity].
    apply Nat.eqb_eq in E; rewrite (NoDup_map_inj ph_id ps r r0 ND Hr In0 E); simpl;
      symmetry; exact P0. }
  unfold table_ok; rewrite Ids, Phs; auto.
Qed.

Lemma persist_message_table ph msg w o w' :
  persist_message ph msg w = (o, w') -> phone_table_ok w -> phone_table_ok w'.
Proof.
  unfold phone_table_ok.
  cbv beta delta [persist_message findByPhone updatePhoneRecord createPhoneRecord bind read ret
                  update].
  destruct (String.eqb ph "") eqn:He.
  - destruct (invoke_ok_run (CreatePhoneRecord ph msg) true w) as [[] E1]; rewrite E1;
      cbn; intros H; inversion H; subst; cbn; intros T; [|exact T|exact T].
    apply table_ok_app; [exact T|left; apply String.eqb_eq; exact He].
  - destruct (invoke_ok_run (FindByPhone ph) true w) as [[] E0]; rewrite E0; cbn -[find_phone invoke_ok];
      [|intros H; inversion H; subst; exact (fun T => T) | intros H; inversion H; subst; exact (fun T => T)].
    destruct (find_phone ph (phones w)) as [r0|] eqn:F; cbn -[find_phone invoke_ok].
    + match goal with |- context [invoke_ok ?c ?r ?w2] =>
        destruct (invoke_ok_run c r w2) as [[] E1]; rewrite E1 end; cbn -[find_phone invoke_ok];
        intros H; inversion H; subst; cbn -[find_phone]; intros T; [|exact T|exact T].
      apply (table_ok_update _ _ _ _ _ T F).
    + match goal with |- context [invoke_ok ?c ?r ?w2] =>
        destruct (invoke_ok_run c r w2) as [[] E1]; rewrite E1 end; cbn -[find_phone invoke_ok];
        intros H; inversion H; subst; cbn -[find_phone]; intros T; [|exact T|exact T].
      apply table_ok_app; [exact T|right; exact F].
Qed.

Definition same_phone_table (w w' : world) : Prop :=
  phones w' = phones w /\ next_id w' = next_id w.
#[export] Instance same_phone_table_pre : WorldPreorder same_phone_table.
Proof. split; unfold same_phone_table; intuition congruence. Qed.

Definition keeps_phone_table (w w' : world) : Prop := phone_table_ok w -> phone_table_ok w'.
#[export] Instance keeps_phone_table_pre : WorldPreorder keeps_phone_table.
Proof. split; unfold keeps_phone_table; auto. Qed.

Lemma frame_weaken (R1 R2 : world -> world -> Prop) {A} (c : M A) :
  (forall w w', R1 w w' -> R2 w w') -> frame R1 c -> frame R2 c.
Proof. intros H F w o w' E; apply H; eapply F; exact E. Qed.

Lemma dispatch_phone_table ph msg conv : frame same_phone_table (dispatch_keywords ph msg conv).
Proof. unfold_handler; frame_auto. Qed.

Lemma mark_phone_table mid : frame same_phone_table (mark_processed mid).
Proof. unfold_handler; frame_auto. Qed.

Lemma process_message_phone_table body mid : frame keeps_phone_table (process_message body mid).
Proof.
  cbv beta zeta delta [process_message]; repeat frame_step;
    try (intros w o w' E; exact (persist_message_table _ _ _ _ _ E));
    apply (frame_weaken same_phone_table);
    try (intros w w' [P N]; unfold keeps_phone_table, phone_table_ok; rewrite P, N; auto);
    first [apply dispatch_phone_table | apply mark_phone_table].
Qed.

Lemma POST_phone_table_frame parsed : frame keeps_phone_table (POST parsed).
Proof.
  unfold POST; repeat frame_step; apply process_message_phone_table.
Qed.

(* ------------------------------------------------------------------ *)
(** ** Invariants of the message id cache and of the Payments table *)

(** No two ids of the list are the same key of a [Set]. *)
Fixpoint svz_distinct (l : list js) : bool :=
  match l with
  | [] => true
  | x :: l' => negb (existsb (same_value_zero x) l') && svz_distinct l'
  end.

(** The state [processedMessageIds] is kept in: at most [MAX_CACHE_SIZE]
    ids, all truthy, no two the same key. *)
Definition cache_ok (l : list js) : bool :=
  Nat.leb (length l) MAX_CACHE_SIZE && forallb truthy l && svz_distinct l.

Lemma same_value_zero_sym a b : same_value_zero a b = same_value_zero b a.
Proof.
  destruct a, b; simpl; try reflexivity;
    try apply String.eqb_sym; destruct b, b0; reflexivity.
Qed.

Lemma svz_distinct_snoc l x :
  svz_distinct l = true -> existsb (same_value_zero x) l = false -> svz_distinct (l ++ [x]) = true.
Proof.
  induction l as [|y l IH]; simpl; intros D N; [reflexivity|].
  apply andb_prop in D as [D1 D2]; apply orb_false_iff in N as [N1 N2].
  rewrite IH by assumption; rewrite existsb_app; simpl.
  rewrite same_value_zero_sym, N1; apply negb_true_iff in D1; rewrite D1; reflexivity.
Qed.

Lemma cache_ok_step l x :
  truthy x = true -> cache_ok l = true -> cache_ok (evict_oldest (set_add x l)) = true.
Proof.
  unfold cache_ok; intros Tx H; apply andb_prop in H as [H D]; apply andb_prop in H as [L T].
  apply Nat.leb_le in L.
  unfold set_add; destruct (existsb (same_value_zero x) l) eqn:N.
  - unfold evict_oldest; replace (Nat.ltb MAX_CACHE_SIZE (length l)) with false
      by (symmetry; apply Nat.ltb_ge; exact L).
    rewrite (proj2 (Nat.leb_le _ _) L), T, D; reflexivity.
  - assert (T' : forallb truthy (l ++ [x]) = true)
      by (rewrite forallb_app; simpl; rewrite T, Tx; reflexivity).
    assert (D' : svz_distinct (l ++ [x]) = true) by (apply svz_distinct_snoc; assumption).
    assert (L' : length (l ++ [x]) <= S MAX_CACHE_SIZE) by (rewrite length_app; simpl; lia).
    unfold evict_oldest; destruct (Nat.ltb MAX_CACHE_SIZE (length (l ++ [x]))) eqn:Lt.
    + apply Nat.ltb_lt in Lt; destruct (l ++ [x])%list as [|y rest] eqn:Ey; [simpl in Lt; lia|].
      simpl in T', D'; apply andb_prop in T' as [Ty Tr]; apply andb_prop in D' as [_ Dr].
      rewrite Ty; simpl in L'.
      rewrite (proj2 (Nat.leb_le (length rest) MAX_CACHE_SIZE) ltac:(lia)), Tr, Dr; reflexivity.
    + apply Nat.ltb_ge in Lt; rewrite (proj2 (Nat.leb_le _ _) Lt), T', D'; reflexivity.
Qed.

(** How a run of [POST] leaves the cache: unchanged, or with one truthy id
    marked. *)
Lemma POST_cache_step parsed w o w' :
  POST parsed w = (o, w') ->
  processed w' = processed w
  \/ exists mid, truthy mid = true /\ processed w' = evict_oldest (set_add mid (processed w)).
Proof.
  intros E0; pose proof E0 as E; unfold POST in E.
  destruct parsed as [body|]; [|inversion E; left; reflexivity].
  destruct (nullish body); [inversion E; left; reflexivity|].
  destruct (is_verification body); [inversion E; left; reflexivity|].
  unfold try_catch in E.
  destruct (process_message body (message_id_of body) w) as [o1 w1] eqn:P.
  destruct (process_message_run _ _ _ _ _ P)
    as [(_ & -> & ->) | (_ & _ & [(ph & msg & c & rs & us & ss & ->) | C])].
  - inversion E; left; reflexivity.
  - inversion E; subst.
    destruct (POST_processed_inv _ _ _ _ _ _ _ _ _ _ E0)
      as (_ & _ & _ & _ & _ & _ & ex & w2 & w3 & E1 & _ & E2 & E3).
    pose proof (proj1 (persist_message_frames _ _) _ _ _ E1) as C1.
    pose proof (proj1 (dispatch_keywords_frames _ _ _) _ _ _ E2) as C2.
    unfold same_cache in C1, C2; unfold mark_processed in E3.
    destruct (truthy (message_id_of body)) eqn:Tm; unfold update, ret in E3; inversion E3; subst.
    + right; exists (message_id_of body); split; [exact Tm|]; simpl; rewrite C2, C1; reflexivity.
    + left; congruence.
  - destruct o1; inversion E; subst; left; exact C.
Qed.

(** The fields the keyword workflows write into a payment record. *)
Definition freed_keys : list string :=
  ["Last Updated"; "Tier"; "Amount"; "Status"; "Stripe Customer ID"; "Stripe Subscription ID";
   "Stripe Payment Intent ID"; "Stripe Session ID"].

(** [r'] is [r] with at most the [freed_keys] fields rewritten. *)
Definition pay_kept (r r' : payment_rec) : Prop :=
  pay_id r' = pay_id r
  /\ forall k, ~ In k freed_keys -> find_prop k (pay_fields r') = find_prop k (pay_fields r).

Definition payments_kept (w w' : world) : Prop := Forall2 pay_kept (payments w) (payments w').

Lemma payments_kept_same w w' : payments w' = payments w -> payments_kept w w'.
Proof.
  intros H; unfold payments_kept; rewrite H; clear H.
  induction (payments w) as [|r l IH]; constructor; [split; reflexivity | exact IH].
Qed.

Lemma Forall2_pay_kept_trans l1 l2 l3 :
  Forall2 pay_kept l1 l2 -> Forall2 pay_kept l2 l3 -> Forall2 pay_kept l1 l3.
Proof.
  intros H12; revert l3; induction H12 as [|a b l1 l2 Hab H12 IH]; intros l3 H23;
    inversion H23 as [|b' c l2' l3' Hbc H23']; subst; constructor; [|apply IH; exact H23'].
  destruct Hab as [I1 F1], Hbc as [I2 F2]; split; [congruence|].
  intros k Hk; rewrite F2, F1 by exact Hk; reflexivity.
Qed.

#[export] Instance payments_kept_pre : WorldPreorder payments_kept.
Proof.
  split; [intros w; apply payments_kept_same; reflexivity|].
  intros w1 w2 w3; apply Forall2_pay_kept_trans.
Qed.

Lemma free_patch_kept status now recordId ps :
  Forall2 pay_kept ps
    (map (fun r => if Nat.eqb (pay_id r) recordId
                   then mk_payment_rec recordId
                          (patch_fields (update_fields now (free_tier_update status)) (pay_fields r))
                   else r) ps).
Proof.
  induction ps as [|r ps IH]; constructor; [|exact IH].
  destruct (Nat.eqb (pay_id r) recordId) eqn:E; [|split; reflexivity].
  apply Nat.eqb_eq in E; split; [simpl; congruence|].
  intros k Hk; cbn [pay_fields].
  unfold patch_fields, update_fields, payment_data_fields, free_tier_update; cbn.
  repeat rewrite find_prop_set_field.
  unfold freed_keys in Hk; simpl in Hk.
  repeat match goal with
         | |- context [String.eqb k ?s] =>
             let H := fresh in
             destruct (String.eqb k s) eqn:H;
               [apply String.eqb_eq in H; subst k; exfalso; apply Hk; tauto|]
         end; reflexivity.
Qed.

Lemma POST_payments_frame parsed : frame payments_kept (POST parsed).
Proof.
  unfold POST, process_message; unfold_handler; repeat frame_step;
    try (intros; apply payments_kept_same; reflexivity);
    intros w; apply free_patch_kept.
Qed.

(* ------------------------------------------------------------------ *)
(** ** Sample environments of the Bird library *)

(** No conversation is listed; each conversation created is answered
    with a fresh id ("conv-1" for the first); the first message post
    answers 404, every later one 200. *)
Definition retry_net (n : nat) (r : bird_request) : option http_response :=
  match r with
  | ListConversations => Some (mk_http_response 200 (Some (JObj [("results", JArr [])])))
  | CreateConversation _ =>
      Some (mk_http_response 200
              (Some (JObj [("id", JStr (if Nat.eqb n 1 then "conv-1" else "conv-2"))])))
  | PostConversationMessage _ _ =>
      if Nat.eqb n 2 then Some (mk_http_response 404 None)
      else Some (mk_http_response 200 (Some (JObj [])))
  | PostChannelMessage _ _ => None
  end.
Definition retry_env : bird_env := mk_bird_env true true [] retry_net.

(** The workspace holds one conversation, "conv-A", with +15551234567. *)
Definition listing_net (n : nat) (r : bird_request) : option http_response :=
  match r with
  | ListConversations =>
      Some (mk_http_response 200
        (Some (JObj [("results", JArr [JObj [("id", JStr "conv-A");
           ("participants", JArr [JObj [("contact",
              JObj [("identifierValue", JStr "+15551234567")])]])]])])))
  | _ => None
  end.
Definition listing_env : bird_env := mk_bird_env true true [] listing_net.

(** Channel posts succeed, nothing else answers. *)
Definition channel_net (n : nat) (r : bird_request) : option http_response :=
  match r with
  | PostChannelMessage _ _ => Some (mk_http_response 200 (Some (JObj [])))
  | _ => None
  end.
Definition channel_env : bird_env := mk_bird_env true true [] channel_net.

(* ------------------------------------------------------------------ *)
(** * Properties of the handler *)

(** C1 (amended).  Once a delivery whose message id is a truthy primitive
    (string, number or boolean) has been processed to completion
    ([Processed]), the id is in the processed-event cache; and any later
    delivery that carries the same id while the id is still cached (it is
    evicted only after MAX_CACHE_SIZE newer ids) and is not a verification
    request is answered [Duplicate] with the world left as it was: no
    record-store call, no payments call, no send.  Deliveries whose first
    processing did not complete, and object or array ids, are not
    deduplicated. *)
Theorem completed_delivery_deduplicated b1 w w1 mid ph msg c rs us ss :
  POST (Some b1) w = (Ret (Processed mid ph msg c rs us ss), w1) ->
  truthy mid = true -> same_value_zero mid mid = true ->
  existsb (same_value_zero mid) (processed w1) = true
  /\ forall b2 w2, message_id_of b2 = mid -> is_verification b2 = false ->
       existsb (same_value_zero mid) (processed w2) = true ->
       POST (Some b2) w2 = (Ret (Duplicate mid), w2).
Proof.
  intros E Ht Hx.
  destruct (POST_processed_inv _ _ _ _ _ _ _ _ _ _ E)
    as (Hn & Hv & Hm & Hd & _ & _ & ex & wa & wb & E1 & _ & E2 & E3).
  split.
  - rewrite Ht in Hd; simpl in Hd.
    pose proof (proj1 (persist_message_frames _ _) _ _ _ E1) as C1.
    pose proof (proj1 (dispatch_keywords_frames _ _ _) _ _ _ E2) as C2.
    unfold same_cache in *.
    eapply mark_processed_new; [exact Ht | exact Hx | | exact E3].
    rewrite C2, C1; exact Hd.
  - intros b2 w2 Hm2 Hv2 Hin; unfold POST.
    destruct (nullish b2) eqn:Hn2.
    { apply nullish_no_id in Hn2; congruence. }
    rewrite Hv2, Hm2; unfold try_catch.
    cbv beta iota zeta delta [process_message bind read ret].
    rewrite Ht, Hin; reflexivity.
Qed.

Lemma completed_delivery_deduplicated_witness :
  POST (Some love_delivery) (snd (POST (Some love_delivery) (sample_world all_ok [])))
  = (Ret (Duplicate (JStr "evt-1")), snd (POST (Some love_delivery) (sample_world all_ok []))).
Proof.
  refine (proj2 (completed_delivery_deduplicated love_delivery (sample_world all_ok [])
                   (snd (POST (Some love_delivery) (sample_world all_ok [])))
                   (JStr "evt-1") "+15551230000" "LOVE" true true false false _ _ _)
                love_delivery _ _ _ _); vm_compute; reflexivity.
Defined.

(** C1 fails as stated: the first delivery of an event id whose phone
    lookup throws is answered with the catch-all acknowledgment and its id
    is not cached, so the second delivery of the same event id is
    processed again (a phone-record write and the LOVE reply) instead of
    being answered as a duplicate. *)
Lemma redelivery_after_failure_not_duplicate :
  fst (POST (Some love_delivery) (sample_world first_call_fails []))
    = Ret (Failed "request failed" (JStr "evt-1"))
  /\ fst (POST (Some love_delivery)
            (snd (POST (Some love_delivery) (sample_world first_call_fails []))))
     = Ret (Processed (JStr "evt-1") "+15551230000" "LOVE" true true false false).
Proof. split; vm_compute; reflexivity. Qed.

(** C2.  [POST] always returns normally (no exception reaches the caller,
    whatever the collaborators do), and its answer has the client-error
    status 400 exactly when the body is not valid JSON; every parsed body
    is acknowledged with status 200. *)
Theorem POST_client_error_iff_unparseable parsed w :
  exists r w', POST parsed w = (Ret r, w') /\ (http_status r = 400 <-> parsed = None).
Proof.
  destruct parsed as [body|].
  2: { exists InvalidJson, w; split; [reflexivity | split; reflexivity]. }
  unfold POST.
  destruct (nullish body).
  { eexists _, w; split; [reflexivity|].
    rewrite http_status_400; split; intro H; discriminate H. }
  destruct (is_verification body).
  { eexists _, w; split; [reflexivity|].
    rewrite http_status_400; split; intro H; discriminate H. }
  unfold try_catch.
  destruct (process_message body (message_id_of body) w) as [[a|e] w1] eqn:Ep.
  - exists a, w1; split; [reflexivity|].
    rewrite http_status_400; split; intro H; [|discriminate H].
    exfalso; exact (proj1 (process_message_answers _ _ _ _ _ Ep) H).
  - eexists _, w1; split; [reflexivity|].
    rewrite http_status_400; split; intro H; discriminate H.
Qed.

(** C10.  The processed-event cache changes only on a delivery answered
    [Processed], i.e. after the phone-record persistence and the keyword
    dispatch have completed (see [POST_processed_inv]); and when a delivery
    ends in the catch-all answer [Failed] (for instance because the
    phone-record write threw), a redelivery of the same body is not
    answered as a duplicate but processed again. *)
Theorem failed_delivery_not_cached body w r w' :
  POST (Some body) w = (Ret r, w') ->
  (processed w' = processed w
   \/ exists ph msg c rs us ss, r = Processed (message_id_of body) ph msg c rs us ss)
  /\ (forall e mid, r = Failed e mid ->
      forall r2 w2, POST (Some body) w' = (Ret r2, w2) -> forall m, r2 <> Duplicate m).
Proof.
  intros E; unfold POST in E.
  destruct (nullish body) eqn:Hn.
  { inversion E; subst; split; [left; reflexivity|].
    intros e mid _ r2 w2 E2 m Hm; subst r2.
    unfold POST in E2; rewrite Hn in E2; discriminate E2. }
  destruct (is_verification body) eqn:Hv.
  { inversion E; subst; split; [left; reflexivity | intros e mid Hr; discriminate Hr]. }
  unfold try_catch in E.
  destruct (process_message body (message_id_of body) w) as [o w1] eqn:Ep.
  destruct (process_message_run _ _ _ _ _ Ep) as [(Hd & Ho & Hw) | (Hd & Ho & Hc)].
  { subst; inversion E; subst; split; [left; reflexivity | intros e mid Hr; discriminate Hr]. }
  destruct o as [a|e].
  - inversion E; subst; split.
    + destruct Hc as [(ph & msg & c & rs & us & ss & Ha) | Hc];
        [right; inversion Ha; subst; do 6 eexists; reflexivity | left; exact Hc].
    + intros e mid Hr; subst.
      exfalso; exact (proj2 (process_message_answers _ _ _ _ _ Ep) e mid eq_refl).
  - assert (Hc' : processed w1 = processed w)
      by (destruct Hc as [(ph & msg & c & rs & us & ss & Ha) | Hc]; [discriminate Ha | exact Hc]).
    inversion E; subst; split; [left; exact Hc'|].
    intros e' mid' _ r2 w2 E2 m Hm; subst r2.
    unfold POST in E2; rewrite Hn, Hv in E2; unfold try_catch in E2.
    destruct (process_message body (message_id_of body) w') as [o2 w3] eqn:Ep2.
    destruct (process_message_run _ _ _ _ _ Ep2) as [(Hd2 & _ & _) | (_ & Ho2 & _)].
    + rewrite Hc' in Hd2; congruence.
    + destruct o2 as [a2|e2]; inversion E2; subst; exact (Ho2 m eq_refl).
Qed.

Lemma failed_delivery_not_cached_witness :
  Processed (JStr "evt-1") "+15551230000" "LOVE" true true false false
  <> Duplicate (JStr "evt-1").
Proof.
  apply (proj2 (failed_delivery_not_cached love_delivery (sample_world first_call_fails [])
                  (Failed "request failed" (JStr "evt-1"))
                  (snd (POST (Some love_delivery) (sample_world first_call_fails []))) eq_refl)
           "request failed" (JStr "evt-1") eq_refl
           (Processed (JStr "evt-1") "+15551230000" "LOVE" true true false false)
           (snd (POST (Some love_delivery)
                   (snd (POST (Some love_delivery) (sample_world first_call_fails []))))));
    vm_compute; reflexivity.
Defined.




(** C9 (amended).  [sendSMSInConversation] never throws.  It attempts, in
    order: (a) the send into the given conversation, when the API key is
    set and a conversation id is given; (b) the find-or-create send by
    phone, when the API key is set and either no conversation id is given
    or (a) got a non-OK HTTP answer (a network error in (a) skips (b));
    (c) the channel-direct send, when neither (a) nor (b) succeeded (in
    particular after a missing API key or an exception in (a) or (b)).  It
    changes nothing but the call log, and returns true exactly when one
    of the attempts succeeded. *)
Theorem reply_fallback_order phone msg conv w :
  exists a1 a2 a3 b w',
    sendSMSInConversation phone msg conv w = (Ret b, w')
    /\ w' = set_trace w (trace w ++ reply_attempts (bird_api_key w) phone msg conv a1 a2 a3)
    /\ (b = true <-> exists ca, In ca (reply_attempts (bird_api_key w) phone msg conv a1 a2 a3)
                             /\ snd ca = Ok).
Proof.
  destruct (sendSMSInConversation_run phone msg conv w) as (a1 & a2 & a3 & E).
  do 5 eexists; split; [exact E|]; split; [reflexivity|].
  rewrite existsb_exists; split; intros (ca & Hin & Hok); exists ca; split; auto;
    destruct (snd ca); try discriminate; reflexivity.
Qed.

(** C9 fails as stated: when the send into the conversation fails with a
    network error, the find-or-create send (b) is skipped and the
    channel-direct send (c) is made at once. *)
Lemma conversation_error_skips_find_or_create :
  sendSMSInConversation "+15551230000" "hi" (JStr "c1") (sample_world conversation_send_throws [])
  = (Ret true, set_trace (sample_world conversation_send_throws [])
                 [(ConversationSend "c1" "hi", Throws); (SendSMSDirect "+15551230000" "hi", Ok)]).
Proof. vm_compute; reflexivity. Qed.

(** Claim C3 (amended): [processStopRequest] never throws. It returns
    [true] unless a Record Store call it makes (the payment lookup or the
    payment update) fails, and then it returns [false]. Whether a Payments
    Gateway cancel succeeds has no effect on the result. *)
Theorem stop_request_result ph w :
  exists b w' ts, processStopRequest ph w = (Ret b, w')
    /\ trace w' = (trace w ++ ts)%list
    /\ b = negb (existsb (fun ca => store_call (fst ca) && negb (is_ok (snd ca))) ts).
Proof.
  cbv beta delta [processStopRequest findPaymentByPhone updatePaymentRecord cancel_subscription
                  try_catch bind read ret update].
  run_calls;
  do 3 eexists; (split; [reflexivity | split; [cbn; rewrite <- ?app_assoc; reflexivity | reflexivity]]).
Qed.

(** A STOP from an active subscriber whose payment update fails: the
    message is persisted (a new phone record), yet [stopProcessed] is
    [false]. *)
Lemma stop_update_failure_returns_false :
  fst (POST (Some stop_delivery) (sample_world payment_update_fails [active_payment]))
  = Ret (Processed (JStr "evt-4") "+15551230000" "STOP" true false false false).
Proof. vm_compute; reflexivity. Qed.

(** Claim C4 (amended): after a delivery that ran the STOP workflow and
    was answered [Processed] with a non-empty normalized phone, the phone
    record for that phone holds the message text as received (which
    equals "STOP" only when the sender wrote it in upper case without
    surrounding spaces). *)
Theorem stop_message_stored_raw body w w' mid ph msg c rs us ss :
  POST (Some body) w = (Ret (Processed mid ph msg c rs us ss), w') ->
  is_stop msg = true -> ph <> "" ->
  exists r, find_phone ph (phones w') = Some r /\ ph_message r = msg.
Proof.
  intros E _ Hne.
  destruct (POST_processed_inv _ _ _ _ _ _ _ _ _ _ E)
    as (_ & _ & _ & _ & _ & _ & ex & w1 & w2 & E1 & _ & E2 & E3).
  destruct (persist_message_stores _ _ _ _ _ Hne E1) as (r & F & Hm).
  destruct (dispatch_keywords_frames ph msg
              (extractConversationId body (select_payload body))) as (_ & Fd & _).
  destruct (mark_processed_frames mid) as (Fm & _).
  exists r; split; [|exact Hm].
  rewrite (Fm _ _ _ E3), (Fd _ _ _ E2); exact F.
Qed.

Lemma stop_message_stored_raw_witness :
  exists r, find_phone "+15551230000"
              (phones (snd (POST (Some stop_wide_delivery) subscriber_world))) = Some r
            /\ ph_message r = stop_wide_text.
Proof.
  apply (stop_message_stored_raw stop_wide_delivery subscriber_world
           (snd (POST (Some stop_wide_delivery) subscriber_world))
           (JStr "evt-10") "+15551230000" stop_wide_text true false false true);
    [vm_compute; reflexivity | vm_compute; reflexivity | discriminate].
Defined.

(** A lower-case "stop" runs the STOP workflow, and the phone record then
    holds "stop", not "STOP". *)
Lemma lowercase_stop_stored_lowercase :
  is_stop "stop" = true
  /\ fst (POST (Some stop_lower_delivery) (sample_world all_ok []))
     = Ret (Processed (JStr "evt-5") "+15551230000" "stop" true false false true)
  /\ phones (snd (POST (Some stop_lower_delivery) (sample_world all_ok [])))
     = [mk_phone_rec 0 "+15551230000" "stop"].
Proof. vm_compute; repeat split. Qed.

(** Claim C5: take a delivery that ran the UNSUB workflow (any letter
    case) and was answered [Processed]. Suppose the sender's payment
    record has a non-free tier, status "active" and a stored subscription
    id, and the Record Store calls succeed. Then the run made exactly one
    Payments Gateway cancel, with that id. Afterwards the record has tier
    "free", amount 0, status "completed" and the four Stripe ids empty. *)
Theorem unsub_active_cancels_and_frees body w w' mid ph msg c rs us ss p sid :
  POST (Some body) w = (Ret (Processed mid ph msg c rs us ss), w') ->
  is_unsub msg = true -> store_ok w ->
  find_payment ph (payments w) = Some p ->
  truthy (find_prop "Tier" (pay_fields p)) = true ->
  is_str (find_prop "Tier" (pay_fields p)) "free" = false ->
  is_str (find_prop "Status" (pay_fields p)) "active" = true ->
  find_prop "Stripe Subscription ID" (pay_fields p) = JStr sid -> sid <> "" ->
  (exists ts, trace w' = (trace w ++ ts)%list /\ cancel_ids ts = [sid])
  /\ exists p', find_payment ph (payments w') = Some p' /\ freed_record "completed" p' = true.
Proof.
  intros E Hu Hok F Ht Hf Ha Hs Hsid.
  destruct (POST_processed_inv _ _ _ _ _ _ _ _ _ _ E)
    as (_ & _ & _ & _ & _ & _ & ex & w1 & w2 & E1 & _ & E2 & E3).
  destruct (persist_message_frames ph msg) as (_ & Pp & Pe & Pc & _).
  destruct (Pe _ _ _ E1) as (_ & Horc & _).
  destruct (Pc _ _ _ E1) as (t1 & T1 & C1).
  pose proof (Pp _ _ _ E1) as P1; unfold same_payments in P1.
  destruct (dispatch_unsub_inv _ _ _ _ _ _ Hu E2) as (u & wu & o & Eu & Er & _).
  assert (Hok1 : store_ok w1) by (intros n c' Hc'; rewrite Horc; apply Hok; exact Hc').
  rewrite <- P1 in F.
  destruct (processUnsubscription_active ph w1 p sid Hok1 F Ht Hf Ha Hs Hsid)
    as (now & wu' & ts & Eu' & Pu & Tu & Cu).
  rewrite Eu' in Eu; inversion Eu; subst wu; clear Eu.
  destruct (reply_frames ph (extractConversationId body (select_payload body)))
    as (Rp & _ & Rc & _).
  pose proof (Rp _ _ _ Er) as P2; unfold same_payments in P2.
  destruct (Rc _ _ _ Er) as (t3 & T3 & C3).
  destruct (mark_processed_frames mid) as (_ & Mp & _ & Mc).
  pose proof (Mp _ _ _ E3) as P3; unfold same_payments in P3.
  destruct (Mc not_cancel _ _ _ E3) as (t4 & T4 & C4).
  split.
  - exists (t1 ++ ts ++ t3 ++ t4)%list; split.
    + rewrite T4, T3, Tu, T1, !app_assoc; reflexivity.
    + rewrite !cancel_ids_app, Cu, (cancel_ids_none t1 C1), (cancel_ids_none t3 C3),
        (cancel_ids_none t4 C4); reflexivity.
  - rewrite P3, P2, Pu.
    eexists; split; [apply find_payment_patched; exact F | apply freed_record_patched].
Qed.

Lemma unsub_active_cancels_and_frees_witness :
  ((exists ts, trace (snd (POST (Some unsub_delivery) subscriber_world))
               = (trace subscriber_world ++ ts)%list /\ cancel_ids ts = ["sub_1"])
   /\ exists p', find_payment "+15551230000"
                   (payments (snd (POST (Some unsub_delivery) subscriber_world))) = Some p'
                 /\ freed_record "completed" p' = true).
Proof.
  apply (unsub_active_cancels_and_frees unsub_delivery subscriber_world
           (snd (POST (Some unsub_delivery) subscriber_world))
           (JStr "evt-6") "+15551230000" "unsub" true false true false active_payment "sub_1");
    first [intros n c' _; reflexivity | discriminate | vm_compute; reflexivity].
Defined.

(** Claim C6: take a delivery that ran the STOP workflow and was answered
    [Processed], from a phone with a payment record, the Record Store
    calls succeeding. Afterwards that record has tier "free", amount 0,
    the four Stripe ids empty and status "cancelled", not "completed".
    This holds whatever the record held before, so also for an active
    paid one. *)
Theorem stop_frees_with_cancelled_status body w w' mid ph msg c rs us ss p :
  POST (Some body) w = (Ret (Processed mid ph msg c rs us ss), w') ->
  is_stop msg = true -> store_ok w ->
  find_payment ph (payments w) = Some p ->
  exists p', find_payment ph (payments w') = Some p'
             /\ freed_record "cancelled" p' = true
             /\ is_str (find_prop "Status" (pay_fields p')) "completed" = false.
Proof.
  intros E Hs Hok F.
  destruct (POST_processed_inv _ _ _ _ _ _ _ _ _ _ E)
    as (_ & _ & _ & _ & _ & _ & ex & w1 & w2 & E1 & _ & E2 & E3).
  destruct (persist_message_frames ph msg) as (_ & Pp & Pe & _).
  destruct (Pe _ _ _ E1) as (_ & Horc & _).
  pose proof (Pp _ _ _ E1) as P1; unfold same_payments in P1.
  destruct (dispatch_stop_inv _ _ _ _ _ _ Hs E2) as (s & ws & o & Es & Er & _).
  assert (Hok1 : store_ok w1) by (intros n c' Hc'; rewrite Horc; apply Hok; exact Hc').
  rewrite <- P1 in F.
  destruct (processStopRequest_found ph w1 p Hok1 F) as (now & ws' & Es' & Ps).
  rewrite Es' in Es; inversion Es; subst ws; clear Es.
  destruct (reply_frames ph (extractConversationId body (select_payload body)))
    as (_ & Rp & _).
  pose proof (Rp _ _ _ Er) as P2; unfold same_payments in P2.
  destruct (mark_processed_frames mid) as (_ & Mp & _).
  pose proof (Mp _ _ _ E3) as P3; unfold same_payments in P3.
  rewrite P3, P2, Ps.
  eexists; split; [apply find_payment_patched; exact F|].
  pose proof (freed_record_patched "cancelled" now (pay_id p) (pay_fields p)) as H.
  split; [exact H|].
  unfold freed_record in H; cbn [pay_fields] in *.
  repeat (apply andb_prop in H; destruct H as [H ?]).
  match goal with
  | Hst : is_str (find_prop "Status" ?fs) "cancelled" = true |- _ =>
      destruct (find_prop "Status" fs); try discriminate Hst; cbn in Hst |- *;
      apply String.eqb_eq in Hst; subst; reflexivity
  end.
Qed.

Lemma stop_frees_with_cancelled_status_witness :
  exists p', find_payment "+15551230000"
               (payments (snd (POST (Some stop_delivery) subscriber_world))) = Some p'
             /\ freed_record "cancelled" p' = true
             /\ is_str (find_prop "Status" (pay_fields p')) "completed" = false.
Proof.
  apply (stop_frees_with_cancelled_status stop_delivery subscriber_world
           (snd (POST (Some stop_delivery) subscriber_world))
           (JStr "evt-4") "+15551230000" "STOP" true false false true active_payment);
    first [intros n c' _; reflexivity | vm_compute; reflexivity].
Defined.

(** Claim C7: take a delivery that ran the UNSUB workflow and was answered
    [Processed], from a phone with no payment record, or whose record has
    an empty or "free" tier, or a status other than "active". Then
    [unsubProcessed] is [false] and the Payments table is unchanged. The
    only payment call of the whole run is the one lookup of the phone.
    The run still attempts to send the UNSUB confirmation, built from the
    templates the store returned or from the default ones. *)
Theorem unsub_inactive_no_payment_change body w w' mid ph msg c rs us ss :
  POST (Some body) w = (Ret (Processed mid ph msg c rs us ss), w') ->
  is_unsub msg = true -> no_active_paid ph (payments w) = true ->
  us = false /\ payments w' = payments w
  /\ exists ts, trace w' = (trace w ++ ts)%list
       /\ payment_calls ts = [FindPaymentByPhone ph]
       /\ exists tpl, (tpl = msg_templates w \/ tpl = default_templates)
          /\ exists ca, In ca ts /\ reply_attempt (fst ca) (unsubReply tpl) = true.
Proof.
  intros E Hu Hna.
  destruct (POST_processed_inv _ _ _ _ _ _ _ _ _ _ E)
    as (_ & _ & _ & _ & _ & _ & ex & w1 & w2 & E1 & _ & E2 & E3).
  destruct (persist_message_frames ph msg) as (_ & Pp & Pe & _ & Pn).
  destruct (Pe _ _ _ E1) as (Htpl & _).
  destruct (Pn _ _ _ E1) as (t1 & T1 & N1).
  pose proof (Pp _ _ _ E1) as P1; unfold same_payments in P1.
  destruct (dispatch_unsub_inv _ _ _ _ _ _ Hu E2) as (u & wu & o & Eu & Er & Hf).
  rewrite <- P1 in Hna.
  destruct (processUnsubscription_inactive ph w1 Hna) as (a & Eu').
  rewrite Eu' in Eu; inversion Eu; subst u wu; clear Eu.
  inversion Hf; subst us.
  destruct (reply_frames ph (extractConversationId body (select_payload body)))
    as (Rp & _ & _ & _ & Rn & _).
  pose proof (Rp _ _ _ Er) as P2; unfold same_payments in P2.
  destruct (Rn _ _ _ Er) as (t3 & T3 & N3).
  destruct (sendUnsubReply_attempts _ _ _ _ _ Er) as (t3' & T3' & tpl & Htpl' & ca & Hin & Hr).
  rewrite T3 in T3'; apply app_inv_head in T3'; subst t3'.
  destruct (mark_processed_frames mid) as (_ & Mp & _ & Mc).
  pose proof (Mp _ _ _ E3) as P3; unfold same_payments in P3.
  destruct (Mc not_payment_call _ _ _ E3) as (t4 & T4 & N4).
  split; [reflexivity|]. split; [rewrite P3, P2; cbn; exact P1|].
  exists (t1 ++ [(FindPaymentByPhone ph, a)] ++ t3 ++ t4)%list; split; [|split].
  - rewrite T4, T3, T1; cbn; rewrite <- !app_assoc; reflexivity.
  - rewrite !payment_calls_app, (payment_calls_none t1 N1), (payment_calls_none t3 N3),
      (payment_calls_none t4 N4); reflexivity.
  - exists tpl; split.
    + cbn in Htpl'; rewrite Htpl in Htpl'; exact Htpl'.
    + exists ca; split; [|exact Hr].
      apply in_or_app; right; apply in_or_app; right; apply in_or_app; left; exact Hin.
Qed.

Lemma unsub_inactive_no_payment_change_witness :
  false = false /\ payments (snd (POST (Some unsub_nbsp_delivery) free_tier_world))
                   = payments free_tier_world
  /\ exists ts, trace (snd (POST (Some unsub_nbsp_delivery) free_tier_world))
                = (trace free_tier_world ++ ts)%list
       /\ payment_calls ts = [FindPaymentByPhone "+15551230000"]
       /\ exists tpl, (tpl = msg_templates free_tier_world \/ tpl = default_templates)
          /\ exists ca, In ca ts /\ reply_attempt (fst ca) (unsubReply tpl) = true.
Proof.
  apply (unsub_inactive_no_payment_change unsub_nbsp_delivery free_tier_world
           (snd (POST (Some unsub_nbsp_delivery) free_tier_world))
           (JStr "evt-11") "+15551230000" unsub_nbsp_text true false false false);
    vm_compute; reflexivity.
Defined.

(* ------------------------------------------------------------------ *)
(** * Further properties of the code *)

(** ** The Bird library *)

(** X1.  The E.164 normalisation of [sendSMS] and [sendSMSDirect] always
    yields a number that starts with "+". *)
Theorem normalize_e164_plus p : starts_with "+" (normalize_e164 p) = true.
Proof. apply normalize_e164_starts_plus. Qed.

(** X2.  The "+" test of the normalisation looks at the untrimmed number:
    a number written with a leading white space character (any character
    [trim] removes, e.g. a space, a no-break space or an ideographic space)
    before its "+" gets a second "+" in front, so it is sent to "++..." . *)
Lemma normalize_e164_ws cp p :
  In cp js_ws_code_points -> starts_with "+" p = true ->
  normalize_e164 (utf8_encode cp ++ p) = String "+" (normalize_e164 p)
  /\ starts_with "++" (normalize_e164 (utf8_encode cp ++ p)) = true.
Proof.
  intros Hcp Hp.
  assert (Nc : starts_with "+" (utf8_encode cp ++ p) = false).
  { destruct (ws_encode_chunk cp Hcp) as [b [t [E _]]]; rewrite E.
    unfold starts_with; cbn [append].
    destruct (String.prefix "+" (String b (t ++ p))) eqn:P; [|reflexivity].
    apply prefix_plus_cons in P; subst b.
    assert (L : ws_lead "+" = true).
    { apply existsb_exists; exists cp; split; [exact Hcp|]; rewrite E; reflexivity. }
    discriminate L. }
  assert (Hh : head_ok p = true).
  { unfold starts_with in Hp; destruct p as [|c p']; [discriminate Hp|].
    apply prefix_plus_cons in Hp; subst c; reflexivity. }
  assert (Eq : normalize_e164 (utf8_encode cp ++ p) = String "+" (normalize_e164 p)).
  { unfold normalize_e164; rewrite Nc, (trim_skip_ws cp p Hcp Hh), Hp; reflexivity. }
  rewrite Eq; split; [reflexivity|].
  pose proof (normalize_e164_starts_plus p) as H; unfold starts_with in *.
  destruct (normalize_e164 p) as [|d t]; [discriminate H|].
  apply prefix_plus_cons in H; subst d; apply String.prefix_correct; destruct t; reflexivity.
Qed.

(** The ideographic space U+3000 in front of "+15551230000". *)
Lemma normalize_e164_ws_witness :
  In 0x3000%N js_ws_code_points /\ starts_with "+" "+15551230000" = true
  /\ normalize_e164 (utf8_encode 0x3000 ++ "+15551230000") = String "+" (normalize_e164 "+15551230000")
  /\ starts_with "++" (normalize_e164 (utf8_encode 0x3000 ++ "+15551230000")) = true.
Proof.
  split; [vm_compute; tauto|]; split; [reflexivity|].
  apply (normalize_e164_ws 0x3000 "+15551230000"); [vm_compute; tauto | reflexivity].
Defined.

(** X3.  [sendSMS] sends no request and throws, leaving its environment
    as it was, exactly when the API key or the channel id is missing or
    the number or the text is blank after trimming (the [ready] flag of
    the handler's model of [sendSMS]); otherwise its first request is the
    conversation listing. *)
Theorem sendSMS_http_guard p m e :
  let ready := bird_key e && bird_channel e && negb (String.eqb (trim p) "")
               && negb (String.eqb (trim m) "") in
  let '(o, e') := sendSMS_http p m e in
  (ready = false -> (exists err, o = Exn err) /\ e' = e)
  /\ (ready = true -> exists rest, bird_log e' = (bird_log e ++ ListConversations :: rest)%list).
Proof.
  destruct (sendSMS_http p m e) as [o e'] eqn:E; cbv zeta.
  assert (Tp : (String.eqb p "" || String.eqb (trim p) "") = String.eqb (trim p) "")
    by (destruct (String.eqb p "") eqn:H; [apply String.eqb_eq in H; subst; reflexivity
                                          | reflexivity]).
  assert (Tm : (String.eqb m "" || String.eqb (trim m) "") = String.eqb (trim m) "")
    by (destruct (String.eqb m "") eqn:H; [apply String.eqb_eq in H; subst; reflexivity
                                          | reflexivity]).
  unfold sendSMS_http, bbind at 1, bread in E; rewrite Tp, Tm in E.
  destruct (bird_key e); cbn [negb andb] in E |- *;
    [|inversion E; subst; split; [intros _; split; [eexists; reflexivity | reflexivity]
                                 | discriminate]].
  unfold bbind at 1 in E.
  destruct (bird_channel e); cbn [negb andb] in E |- *;
    [|inversion E; subst; split; [intros _; split; [eexists; reflexivity | reflexivity]
                                 | discriminate]].
  destruct (String.eqb (trim p) ""); cbn [negb andb] in E |- *;
    [inversion E; subst; split; [intros _; split; [eexists; reflexivity | reflexivity]
                                | discriminate]|].
  destruct (String.eqb (trim m) ""); cbn [negb andb] in E |- *;
    [inversion E; subst; split; [intros _; split; [eexists; reflexivity | reflexivity]
                                | discriminate]|].
  split; [discriminate|intros _].
  unfold bbind at 1 in E.
  destruct (findOrCreateConversation (normalize_e164 p) e) as [[cid|err] e1] eqn:F;
    destruct (findOrCreateConversation_log _ _ _ _ F) as (k & _ & L & _).
  2: { inversion E; subst; rewrite L; eexists; reflexivity. }
  match type of E with
  | ?c e1 = _ =>
      assert (Bc : bframe c)
        by (repeat bstep; try apply createConversation_frame;
            try (apply bpure_bframe; apply response_json_pure));
      destruct (Bc _ _ _ E) as (_ & _ & _ & l & L2)
  end.
  rewrite L2, L, <- app_assoc; eexists; reflexivity.
Qed.

(** X4.  When the first post of a [sendSMS] that succeeds is answered
    404, the library creates a conversation and then posts again to the
    conversation id it had found before, not to the one it just created:
    the request log ends with the post, or with post, create, post, both
    posts to that first id. *)
Theorem sendSMS_retry_same_conversation p m e v e' :
  sendSMS_http p m e = (Ret v, e') ->
  exists conv cid e1,
    findOrCreateConversation (normalize_e164 p) e = (Ret conv, e1)
    /\ js_to_string conv = Some cid
    /\ (bird_log e' = (bird_log e1 ++ [PostConversationMessage cid (trim m)])%list
        \/ bird_log e' = (bird_log e1 ++ [PostConversationMessage cid (trim m);
                                          CreateConversation (normalize_e164 p);
                                          PostConversationMessage cid (trim m)])%list).
Proof.
  intros E; unfold sendSMS_http, bbind at 1, bread in E.
  destruct (bird_key e); cbn [negb] in E; [|exn_ret].
  unfold bbind at 1 in E; destruct (bird_channel e); cbn [negb] in E; [|exn_ret].
  destruct (String.eqb p "" || String.eqb (trim p) ""); [exn_ret|].
  destruct (String.eqb m "" || String.eqb (trim m) ""); [exn_ret|].
  unfold bbind at 1 in E.
  destruct (findOrCreateConversation (normalize_e164 p) e) as [[conv|err] e1] eqn:F; [|exn_ret].
  destruct (js_to_string conv) as [cid|] eqn:J; [|exn_ret].
  exists conv, cid, e1; split; [reflexivity|]; split; [exact J|].
  unfold bbind at 1, fetch at 1 in E.
  destruct (bird_net e1 _ _) as [r|]; [|exn_ret].
  set (e2 := set_bird_log e1 (bird_log e1 ++ [PostConversationMessage cid (trim m)]))
    in E.
  destruct (response_ok r).
  { left; rewrite (response_json_pure _ _ _ _ E); reflexivity. }
  destruct (Nat.eqb (resp_status r) 404); [|exn_ret].
  unfold bbind at 1 in E.
  destruct (createConversation (normalize_e164 p) e2) as [[c2|err] e3] eqn:C; [|exn_ret].
  apply createConversation_log in C as [C _].
  unfold bbind at 1, fetch in E.
  destruct (bird_net e3 _ _) as [r2|]; [|exn_ret].
  destruct (response_ok r2); [|exn_ret].
  right; rewrite (response_json_pure _ _ _ _ E); cbn [bird_log set_bird_log].
  rewrite C; cbn [bird_log set_bird_log e2]; rewrite <- !app_assoc; reflexivity.
Qed.

Lemma sendSMS_retry_same_conversation_witness :
  sendSMS_http "+15551230000" "hello" retry_env
    = (Ret (JObj []), snd (sendSMS_http "+15551230000" "hello" retry_env))
  /\ exists conv cid e1,
    findOrCreateConversation (normalize_e164 "+15551230000") retry_env = (Ret conv, e1)
    /\ js_to_string conv = Some cid
    /\ (bird_log (snd (sendSMS_http "+15551230000" "hello" retry_env))
          = (bird_log e1 ++ [PostConversationMessage cid (trim "hello")])%list
        \/ bird_log (snd (sendSMS_http "+15551230000" "hello" retry_env))
          = (bird_log e1 ++ [PostConversationMessage cid (trim "hello");
                             CreateConversation (normalize_e164 "+15551230000");
                             PostConversationMessage cid (trim "hello")])%list).
Proof.
  split; [reflexivity|].
  apply (sendSMS_retry_same_conversation "+15551230000" "hello" retry_env (JObj [])).
  reflexivity.
Defined.

(** X5.  [findOrCreateConversation] first lists the conversations, then
    sends zero, one or two conversation creations and nothing else; a run
    that throws has sent at least one creation (a failed creation inside
    the [try] is followed by a second one from the [catch]). *)
Theorem findOrCreateConversation_requests p e :
  let '(o, e') := findOrCreateConversation p e in
  exists k, k <= 2
    /\ bird_log e' = (bird_log e ++ ListConversations :: repeat (CreateConversation p) k)%list
    /\ (forall m, o = Exn m -> 1 <= k).
Proof.
  destruct (findOrCreateConversation p e) as [o e'] eqn:E.
  exact (findOrCreateConversation_log p e o e' E).
Qed.

(** X6.  A listed conversation whose contact number contains the number
    without its "+" (and whose id converts to a string) is taken as the
    number's conversation, without creating one: a short number is
    matched to another number's conversation. *)
Theorem find_conversation_by_substring p e s conv :
  bird_net e (length (bird_log e)) ListConversations =
    Some (mk_http_response 200
      (Some (JObj [("results", JArr [JObj [("id", conv);
         ("participants", JArr [JObj [("contact", JObj [("identifierValue", JStr s)])]])]])]))) ->
  s <> "" ->
  str_includes (replace_first "+" "" p) s = true ->
  js_to_string conv <> None ->
  findOrCreateConversation p e = (Ret conv, set_bird_log e (bird_log e ++ [ListConversations])).
Proof.
  intros N Hs Hi Hc.
  assert (Hs' : String.eqb s "" = false)
    by (destruct (String.eqb s "") eqn:H; [apply String.eqb_eq in H; contradiction | reflexivity]).
  unfold findOrCreateConversation, btry, bbind, fetch; rewrite N.
  unfold participant_matches, get_opt, jor; cbn -[str_includes replace_first].
  unfold jor, truthy, bbind, is_str; rewrite Hs'; cbn -[str_includes replace_first].
  destruct (String.eqb s p); cbn -[str_includes replace_first];
    [|rewrite Hi; cbn -[str_includes replace_first]];
    (destruct (js_to_string conv); [reflexivity | contradiction]).
Qed.

Lemma find_conversation_by_substring_witness :
  findOrCreateConversation "+1555" listing_env
  = (Ret (JStr "conv-A"), set_bird_log listing_env (bird_log listing_env ++ [ListConversations])).
Proof.
  apply (find_conversation_by_substring "+1555" listing_env "+15551234567" (JStr "conv-A"));
    [reflexivity | discriminate | reflexivity | discriminate].
Defined.

(** X7.  [sendSMSSequence] never throws, and it answers one result per
    message, numbered 1, 2, ... in the order of the messages. *)
Theorem sendSMSSequence_indices p ms e :
  exists rs, fst (sendSMSSequence p ms e) = Ret rs
             /\ map result_index rs = seq 1 (length ms).
Proof. apply sendSMSSequence_from_results. Qed.

(** X8.  With the API key and the channel configured, [sendSMSDirect]
    sends exactly one request, a channel post of the normalised number and
    the trimmed text (also for a blank text, which it does not reject),
    and it returns only when that post was answered with an OK status and
    a JSON body. *)
Theorem sendSMSDirect_single_post p m e :
  bird_key e = true -> bird_channel e = true ->
  let '(o, e') := sendSMSDirect_http p m e in
  bird_log e' = (bird_log e ++ [PostChannelMessage (normalize_e164 p) (trim m)])%list
  /\ (forall v, o = Ret v ->
        exists r, bird_net e (length (bird_log e))
                    (PostChannelMessage (normalize_e164 p) (trim m)) = Some r
                  /\ response_ok r = true /\ resp_json r = Some v).
Proof.
  intros K C; destruct (sendSMSDirect_http p m e) as [o e'] eqn:E.
  unfold sendSMSDirect_http, bbind, bread in E; rewrite K, C in E; cbn [andb negb] in E.
  unfold fetch in E.
  destruct (bird_net e _ _) as [r|] eqn:N; [|inversion E; subst; split;
                                              [reflexivity | intros v Hv; discriminate Hv]].
  destruct (response_ok r) eqn:Ok.
  - unfold response_json in E; destruct (resp_json r) as [x|] eqn:J; inversion E; subst;
      (split; [reflexivity|]); intros v Hv; [|discriminate Hv].
    inversion Hv; subst; exists r; auto.
  - inversion E; subst; split; [reflexivity | intros v Hv; discriminate Hv].
Qed.

Lemma sendSMSDirect_single_post_witness :
  bird_key channel_env = true /\ bird_channel channel_env = true
  /\ bird_log (snd (sendSMSDirect_http "+15551230000" "   " channel_env))
     = [PostChannelMessage "+15551230000" ""].
Proof.
  split; [reflexivity|]; split; [reflexivity|].
  exact (proj1 (sendSMSDirect_single_post "+15551230000" "   " channel_env eq_refl eq_refl)).
Defined.

(** ** The welcome link and the payload *)

(** X9.  The phone number put in the LOVE welcome link
    ([encodeURIComponent(phoneNumber)]) only has unreserved characters and
    "%" escapes, and decoding it gives the number back. *)
Theorem encode_uri_component_safe s :
  all_chars (fun c => uri_unreserved c || Ascii.eqb c "%") (encode_uri_component s) = true
  /\ uri_decode (encode_uri_component s) = s.
Proof.
  split; [|apply uri_decode_encode].
  induction s as [|c s IH]; [reflexivity|]; rewrite encode_uri_component_cons.
  destruct (uri_unreserved c) eqn:U; cbn [all_chars]; [rewrite U, IH; reflexivity|].
  pose proof (Ascii.nat_ascii_bounded c) as B.
  assert (D1 : nat_of_ascii c / 16 < 16) by (apply Nat.Div0.div_lt_upper_bound; lia).
  assert (D2 : nat_of_ascii c mod 16 < 16) by (apply Nat.mod_upper_bound; lia).
  rewrite (hex_digit_unreserved _ D1), (hex_digit_unreserved _ D2), IH; reflexivity.
Qed.

(** X10.  [getBaseUrl] removes one trailing "/" of NGROK_URL, and only one. *)
Theorem getBaseUrl_strips_one_slash u : getBaseUrl (u ++ "/") = u.
Proof.
  unfold getBaseUrl, strip_trailing_slash.
  assert (L : String.length (u ++ "/") = S (String.length u))
    by (rewrite length_app_str; simpl; lia).
  destruct (String.eqb (u ++ "/") "") eqn:E.
  { apply String.eqb_eq in E; rewrite E in L; discriminate L. }
  rewrite L; replace (S (String.length u) - 1) with (String.length u) by lia.
  rewrite substring_app_right, substring_app_left; reflexivity.
Qed.

(** X11.  [extractSenderNumber] returns a falsy value only as the empty
    string, and only when the payload has a truthy [sender] or [contact]
    object without any number field. *)
Theorem extractSenderNumber_falsy m :
  truthy (extractSenderNumber m) = false ->
  extractSenderNumber m = JStr "" /\ (truthy (get m "sender") || truthy (get m "contact")) = true.
Proof.
  unfold extractSenderNumber, jor.
  repeat match goal with
         | |- context [if truthy ?x then _ else _] =>
             let H := fresh "T" in destruct (truthy x) eqn:H
         end; cbn; intros F; try congruence; try (rewrite F in *; discriminate);
    split; reflexivity.
Qed.

Lemma extractSenderNumber_falsy_witness :
  truthy (extractSenderNumber (JObj [("sender", JObj [("contact", JObj [])])])) = false
  /\ extractSenderNumber (JObj [("sender", JObj [("contact", JObj [])])]) = JStr ""
  /\ (truthy (get (JObj [("sender", JObj [("contact", JObj [])])]) "sender")
      || truthy (get (JObj [("sender", JObj [("contact", JObj [])])]) "contact")) = true.
Proof. split; [reflexivity|]; apply extractSenderNumber_falsy; reflexivity. Defined.

(** ** Invariants of the handler *)

(** X12.  Every run of [POST] keeps the message id cache within
    [MAX_CACHE_SIZE] ids, all truthy and no two the same [Set] key. *)
Theorem POST_cache_invariant parsed w o w' :
  cache_ok (processed w) = true -> POST parsed w = (o, w') -> cache_ok (processed w') = true.
Proof.
  intros C E; destruct (POST_cache_step _ _ _ _ E) as [-> | (mid & T & ->)];
    [exact C | apply cache_ok_step; assumption].
Qed.

Lemma POST_cache_invariant_witness :
  cache_ok (processed (sample_world all_ok [])) = true
  /\ cache_ok (processed (snd (POST (Some love_delivery) (sample_world all_ok [])))) = true.
Proof.
  split; [reflexivity|].
  apply (POST_cache_invariant (Some love_delivery) (sample_world all_ok [])
           (fst (POST (Some love_delivery) (sample_world all_ok []))));
    [reflexivity | vm_compute; reflexivity].
Defined.

(** X13.  Every run of [POST] keeps the Phone Numbers table consistent:
    distinct record ids, and at most one record for every non-empty phone
    number (a known number is updated, never created again). *)
Theorem POST_phone_table_invariant parsed w o w' :
  phone_table_ok w -> POST parsed w = (o, w') -> phone_table_ok w'.
Proof. intros T E; exact (POST_phone_table_frame parsed w o w' E T). Qed.

Lemma POST_phone_table_invariant_witness :
  phone_table_ok (sample_world all_ok [])
  /\ phone_table_ok (snd (POST (Some love_delivery) (sample_world all_ok []))).
Proof.
  assert (T : phone_table_ok (sample_world all_ok []))
    by (split; [constructor | split; [constructor | intros; simpl; lia]]).
  split; [exact T|].
  apply (POST_phone_table_invariant (Some love_delivery) (sample_world all_ok [])
           (fst (POST (Some love_delivery) (sample_world all_ok []))));
    [exact T | vm_compute; reflexivity].
Defined.

(** X14.  A run of [POST] never adds or removes a payment record, never
    changes a record id, and changes no field of a record other than
    Last Updated, Tier, Amount, Status and the four Stripe identifiers. *)
Theorem POST_payments_kept parsed w o w' :
  POST parsed w = (o, w') -> Forall2 pay_kept (payments w) (payments w').
Proof. intros E; exact (POST_payments_frame parsed w o w' E). Qed.

Lemma POST_payments_kept_witness :
  Forall2 pay_kept (payments subscriber_world)
    (payments (snd (POST (Some stop_delivery) subscriber_world))).
Proof.
  apply (POST_payments_kept (Some stop_delivery) subscriber_world
           (fst (POST (Some stop_delivery) subscriber_world))).
  vm_compute; reflexivity.
Defined.

(** X15.  The phone number a processed delivery is stored under contains
    no white space character. *)
Theorem processed_phone_has_no_ws body w mid ph msg c rs us ss w' :
  POST (Some body) w = (Ret (Processed mid ph msg c rs us ss), w') ->
  forallb (fun ch => negb (is_ws_char ch)) (utf8_chars ph) = true.
Proof.
  intros E; destruct (POST_processed_inv _ _ _ _ _ _ _ _ _ _ E)
    as (_ & _ & _ & _ & _ & (p & _ & ->) & _).
  rewrite trim_no_ws by apply remove_ws_no_ws; apply remove_ws_no_ws.
Qed.

Lemma processed_phone_has_no_ws_witness :
  POST (Some (sms_body "evt-9" spaced_sender "hello")) (sample_world all_ok [])
  = (Ret (Processed (JStr "evt-9") "+15551230000" "hello" true false false false),
     snd (POST (Some (sms_body "evt-9" spaced_sender "hello")) (sample_world all_ok [])))
  /\ forallb (fun ch => negb (is_ws_char ch)) (utf8_chars "+15551230000") = true.
Proof.
  assert (E : POST (Some (sms_body "evt-9" spaced_sender "hello")) (sample_world all_ok [])
    = (Ret (Processed (JStr "evt-9") "+15551230000" "hello" true false false false),
       snd (POST (Some (sms_body "evt-9" spaced_sender "hello")) (sample_world all_ok []))))
    by (vm_compute; reflexivity).
  split; [exact E | exact (processed_phone_has_no_ws _ _ _ _ _ _ _ _ _ _ E)].
Defined.

(** X16.  A sender made only of white space (for example one ideographic
    space) is normalised to the empty number, which is never looked up: each such delivery is answered as
    a new number and appends one more record with an empty phone number. *)
Theorem empty_phone_always_created body w mid msg c rs us ss w' :
  POST (Some body) w = (Ret (Processed mid "" msg c rs us ss), w') ->
  c = true /\ phones w' = (phones w ++ [mk_phone_rec (next_id w) "" msg])%list.
Proof.
  intros E; destruct (POST_processed_inv _ _ _ _ _ _ _ _ _ _ E)
    as (_ & _ & _ & _ & _ & _ & ex & w1 & w2 & E1 & Hc & E2 & E3).
  pose proof (proj1 (proj2 (dispatch_keywords_frames _ _ _)) _ _ _ E2) as P2.
  pose proof (proj1 (mark_processed_frames mid) _ _ _ E3) as P3.
  unfold same_phones in P2, P3; rewrite P3, P2.
  cbv beta delta [persist_message findByPhone createPhoneRecord bind read ret update] in E1.
  cbn -[invoke_ok] in E1.
  destruct (invoke_ok_run (CreatePhoneRecord "" msg) true w) as [[] E0]; rewrite E0 in E1;
    cbn in E1; inversion E1; subst; split; reflexivity.
Qed.

Lemma empty_phone_always_created_witness :
  POST (Some (sms_body "evt-8" wide_space_sender "hello")) (sample_world all_ok [])
  = (Ret (Processed (JStr "evt-8") "" "hello" true false false false),
     snd (POST (Some (sms_body "evt-8" wide_space_sender "hello")) (sample_world all_ok [])))
  /\ true = true
  /\ phones (snd (POST (Some (sms_body "evt-8" wide_space_sender "hello")) (sample_world all_ok [])))
     = (phones (sample_world all_ok []) ++ [mk_phone_rec 0 "" "hello"])%list.
Proof.
  assert (E : POST (Some (sms_body "evt-8" wide_space_sender "hello")) (sample_world all_ok [])
    = (Ret (Processed (JStr "evt-8") "" "hello" true false false false),
       snd (POST (Some (sms_body "evt-8" wide_space_sender "hello")) (sample_world all_ok []))))
    by (vm_compute; reflexivity).
  split; [exact E | exact (empty_phone_always_created _ _ _ _ _ _ _ _ _ E)].
Defined.
